(** * Open93AtHome-V3: shard routing, cluster eligibility and signing helpers

    A shallow embedding of [FileList] (catalog, shard partition, cluster
    eligibility) and of the [Utilities] helpers it relies on (random picks,
    file hashing with a sentinel, URL-safe signatures), followed by the
    properties the specification states about them. *)

From Stdlib Require Import ZArith List String Ascii Bool Lia Permutation.
From stdpp Require Import base list gmap.
Import ListNotations.

Local Open Scope Z_scope.

(** ** JavaScript values and control effects *)

Module Js.

(** Exceptions the modelled code can raise. *)
Inductive error : Type :=
| TypeError (msg : string)
| RangeError (msg : string)
| Error (msg : string).

(** A computation either returns a value or throws. *)
Inductive result (A : Type) : Type :=
| Ok (a : A)
| Throw (e : error).
Arguments Ok {A} a.
Arguments Throw {A} e.

Definition bind {A B} (m : result A) (k : A -> result B) : result B :=
  match m with
  | Ok a => k a
  | Throw e => Throw e
  end.

(** [try { body } catch (err) { handler }] *)
Definition try_catch {A} (body : result A) (handler : error -> A) : A :=
  match body with
  | Ok a => a
  | Throw e => handler e
  end.

(** The integer-valued part of [number], with [NaN] for [x % 0]. *)
Inductive number : Type :=
| Int (z : Z)
| NaN.

(** [Math.abs] on an integer. *)
Definition Math_abs (x : Z) : Z := Z.abs x.

(** [a % b]: the remainder takes the sign of the dividend. *)
Definition rem (a b : Z) : number :=
  if b =? 0 then NaN else Int (Z.rem a b).

(** [a <= b]; every comparison with [NaN] is false. *)
Definition leb (a b : number) : bool :=
  match a, b with
  | Int x, Int y => x <=? y
  | _, _ => false
  end.

(** [arr[i]]: [None] stands for [undefined]. *)
Definition index {A} (arr : list A) (i : number) : option A :=
  match i with
  | Int z => if z <? 0 then None else arr !! Z.to_nat z
  | NaN => None
  end.

(** Truthiness of an optional string: [undefined] and [""] are falsy. *)
Definition truthy (s : option string) : bool :=
  match s with
  | Some EmptyString => false
  | Some _ => true
  | None => false
  end.

(** [s || dflt] on an optional string. *)
Definition or_default (s : option string) (dflt : string) : string :=
  match s with
  | Some (String c r) => String c r
  | _ => dflt
  end.

(** The bytes of a string (strings are held as their UTF-8 bytes). *)
Definition bytes_of_string (s : string) : list Z :=
  List.map (fun c => Z.of_N (N_of_ascii c)) (list_ascii_of_string s).

End Js.

Notation "'let!' x ':=' m 'in' k" := (Js.bind m (fun x => k))
  (at level 10, x name, m at level 100, k at level 200).

(** ** The [crc-32] package: CRC-32/ISO-HDLC as a signed 32-bit integer *)

Module Crc32.

(** Reflected generator polynomial. *)
Definition poly : Z := 0xEDB88320.

Definition step_bit (c : Z) : Z :=
  if Z.testbit c 0 then Z.lxor (Z.shiftr c 1) poly else Z.shiftr c 1.

Definition step_byte (c b : Z) : Z :=
  Nat.iter 8 step_bit (Z.lxor c (Z.land b 0xFF)).

Definition buf (data : list Z) : Z :=
  Z.lxor (fold_left step_byte data 0xFFFFFFFF) 0xFFFFFFFF.

(** Reading an unsigned 32-bit pattern as a signed [int32]. *)
Definition to_int32 (u : Z) : Z :=
  if u <? 2 ^ 31 then u else u - 2 ^ 32.

(** [crc32.str(value)] *)
Definition str (value : string) : Z :=
  to_int32 (buf (Js.bytes_of_string value)).

End Crc32.

(** ** [Math.random], the only source of nondeterminism *)

Module Random.

(** The generator: an arbitrary sequence of raw draws and a cursor. *)
Record rng : Type := { draws : nat -> Z; pos : nat }.

(** [Math.random()] yields a double [m / 2^53] in [0, 1); the value is
    represented by its numerator [m]. *)
Definition Math_random (g : rng) : Z * rng :=
  (draws g (pos g) mod 2 ^ 53, {| draws := draws g; pos := S (pos g) |}).

(** The double nearest to [p / 2^53] for an integer [p >= 0], as its
    numerator over [2^53]: a double keeps 53 significant bits, so the [k]
    bits below them are rounded away, to nearest and to even on a tie. *)
Definition round_to_double (p : Z) : Z :=
  let k := Z.log2 p - 52 in
  if k <=? 0 then p
  else
    let q := p / 2 ^ k in
    let rest := p mod 2 ^ k in
    let half := 2 ^ (k - 1) in
    let q' :=
      if (half <? rest) || ((rest =? half) && Z.odd q) then q + 1 else q in
    q' * 2 ^ k.

(** [Math.floor(r * n)] for [r] a numerator as above and [n] an array
    length: the product of the two doubles is the exact product rounded
    to a double, which is then floored. *)
Definition Math_floor_mul (r n : Z) : Z :=
  round_to_double (r * n) / 2 ^ 53.

End Random.

(** ** Arrays that live on the heap and are mutated in place *)

Module Heap.
Section WithElem.
Context {T : Type}.

Definition loc : Type := positive.

(** The contents of an array; an unallocated location reads as empty. *)
Definition read (h : gmap positive (list T)) (a : loc) : list T :=
  default [] (h !! a).

(** [[...a]]: a fresh array holding a copy of the elements of [a]. *)
Definition spread (h : gmap positive (list T)) (a : loc)
  : loc * gmap positive (list T) :=
  let l := fresh (dom h) in (l, <[l := read h a]> h).

(** [a.splice(i, 1)]: removes the element at [i] from [a] in place and
    returns the array of removed elements. *)
Definition splice1 (h : gmap positive (list T)) (a : loc) (i : Z)
  : list T * gmap positive (list T) :=
  let arr := read h a in
  let k := Z.to_nat i in
  (take 1 (drop k arr), <[a := take k arr ++ drop (S k) arr]> h).

End WithElem.
End Heap.

(** ** [Buffer] and [Number] text encodings *)

Module Encoding.

Local Open Scope string_scope.

(** A buffer is a list of bytes. *)
Definition byteZ (b : Byte.byte) : Z := Z.of_N (Byte.to_N b).

Definition string_bytes (s : string) : list Byte.byte :=
  list_byte_of_string s.

Definition char_at (alphabet : string) (i : Z) : ascii :=
  default "="%char (String.get (Z.to_nat i) alphabet).

Definition base64_alphabet : string :=
  "ABCDEFGHIJKLMNOPQRSTUVWXYZabcdefghijklmnopqrstuvwxyz0123456789+/".

(** The four 6-bit groups of a 3-byte block. *)
Definition sextet1 (a : Z) : Z := Z.shiftr a 2.
Definition sextet2 (a b : Z) : Z :=
  Z.lor (Z.shiftl (Z.land a 3) 4) (Z.shiftr b 4).
Definition sextet3 (b c : Z) : Z :=
  Z.lor (Z.shiftl (Z.land b 15) 2) (Z.shiftr c 6).
Definition sextet4 (c : Z) : Z := Z.land c 63.

(** [buffer.toString('base64')]: standard alphabet, [=] padding. *)
Fixpoint Buffer_toString_base64 (buffer : list Byte.byte) : string :=
  let ch := char_at base64_alphabet in
  match buffer with
  | [] => ""
  | [a] =>
      String (ch (sextet1 (byteZ a)))
        (String (ch (sextet2 (byteZ a) 0)) "==")
  | [a; b] =>
      String (ch (sextet1 (byteZ a)))
        (String (ch (sextet2 (byteZ a) (byteZ b)))
           (String (ch (sextet3 (byteZ b) 0)) "="))
  | a :: b :: c :: rest =>
      String (ch (sextet1 (byteZ a)))
        (String (ch (sextet2 (byteZ a) (byteZ b)))
           (String (ch (sextet3 (byteZ b) (byteZ c)))
              (String (ch (sextet4 (byteZ c)))
                 (Buffer_toString_base64 rest))))
  end.

(** [s.replace(/x/g, y)] for single characters [x] and [y]. *)
Fixpoint replace_all (x y : ascii) (s : string) : string :=
  match s with
  | EmptyString => EmptyString
  | String c r =>
      String (if Ascii.eqb c x then y else c) (replace_all x y r)
  end.

(** [s.replace(/=+$/, '')]: drops the run of [=] that ends the string. *)
Fixpoint strip_trailing_eq (s : string) : string :=
  match s with
  | EmptyString => EmptyString
  | String c r =>
      match strip_trailing_eq r with
      | EmptyString => if Ascii.eqb c "=" then EmptyString else String c EmptyString
      | r' => String c r'
      end
  end.

(** Lower-case hexadecimal, two digits per byte ([digest('hex')]). *)
Definition hex_digit (d : Z) : ascii :=
  char_at "0123456789abcdef" d.

Fixpoint hex (buffer : list Byte.byte) : string :=
  match buffer with
  | [] => ""
  | b :: rest =>
      String (hex_digit (Z.shiftr (byteZ b) 4))
        (String (hex_digit (Z.land (byteZ b) 15)) (hex rest))
  end.

(** [n.toString(36)] on an integer [n]. *)
Definition digit36 (d : Z) : ascii :=
  char_at "0123456789abcdefghijklmnopqrstuvwxyz" d.

Fixpoint digits36 (fuel : nat) (n : Z) (acc : string) : string :=
  match fuel with
  | O => acc
  | S fuel' =>
      let acc' := String (digit36 (n mod 36)) acc in
      if (n / 36 =? 0)%Z then acc' else digits36 fuel' (n / 36) acc'
  end.

Definition Number_toString36 (n : Z) : string :=
  if (n =? 0)%Z then "0"
  else if (n <? 0)%Z
       then String "-" (digits36 (S (Z.to_nat (Z.log2 (- n)))) (- n) "")
       else digits36 (S (Z.to_nat (Z.log2 n))) n "".

(** Reading a base-36 numeral back (used to state what [toString(36)]
    denotes). *)
Definition value36 (c : ascii) : option Z :=
  let n := Z.of_N (N_of_ascii c) in
  if ((48 <=? n) && (n <=? 57))%Z then Some (n - 48)
  else if ((97 <=? n) && (n <=? 122))%Z then Some (n - 87)
  else None.

Fixpoint parse36_from (acc : Z) (s : string) : option Z :=
  match s with
  | EmptyString => Some acc
  | String c r =>
      match value36 c with
      | Some d => parse36_from (acc * 36 + d) r
      | None => None
      end
  end.

Definition parse36 (s : string) : option Z :=
  match s with
  | EmptyString => None
  | String c r =>
      if Ascii.eqb c "-" then option_map Z.opp (parse36_from 0 r)
      else parse36_from 0 s
  end.

(** URL-safe base64 without padding (RFC 4648, section 5), written
    directly: the reference the signing code is compared with. *)
Definition base64url_alphabet : string :=
  "ABCDEFGHIJKLMNOPQRSTUVWXYZabcdefghijklmnopqrstuvwxyz0123456789-_".

Fixpoint base64url_nopad (buffer : list Byte.byte) : string :=
  let ch := char_at base64url_alphabet in
  match buffer with
  | [] => ""
  | [a] =>
      String (ch (sextet1 (byteZ a)))
        (String (ch (sextet2 (byteZ a) 0)) "")
  | [a; b] =>
      String (ch (sextet1 (byteZ a)))
        (String (ch (sextet2 (byteZ a) (byteZ b)))
           (String (ch (sextet3 (byteZ b) 0)) ""))
  | a :: b :: c :: rest =>
      String (ch (sextet1 (byteZ a)))
        (String (ch (sextet2 (byteZ a) (byteZ b)))
           (String (ch (sextet3 (byteZ b) (byteZ c)))
              (String (ch (sextet4 (byteZ c)))
                 (base64url_nopad rest))))
  end.

(** Reading unpadded URL-safe base64 back: the position of a character
    in the alphabet (64 when it is not in it), then three bytes out of
    every four characters. *)
Fixpoint position_from (i : Z) (c : ascii) (alphabet : string) : Z :=
  match alphabet with
  | EmptyString => 64
  | String a rest =>
      if Ascii.eqb a c then i else position_from (i + 1) c rest
  end.

Definition position (c : ascii) : Z := position_from 0 c base64url_alphabet.

Definition to_byte (z : Z) : Byte.byte :=
  match Byte.of_N (Z.to_N (Z.land z 0xFF)) with
  | Some b => b
  | None => Byte.x00
  end.

Definition octet1 (v1 v2 : Z) : Byte.byte :=
  to_byte (Z.lor (Z.shiftl v1 2) (Z.shiftr v2 4)).
Definition octet2 (v2 v3 : Z) : Byte.byte :=
  to_byte (Z.lor (Z.shiftl (Z.land v2 15) 4) (Z.shiftr v3 2)).
Definition octet3 (v3 v4 : Z) : Byte.byte :=
  to_byte (Z.lor (Z.shiftl (Z.land v3 3) 6) v4).

Fixpoint base64url_decode (s : string) : list Byte.byte :=
  match s with
  | String c1 (String c2 (String c3 (String c4 rest))) =>
      octet1 (position c1) (position c2)
      :: octet2 (position c2) (position c3)
      :: octet3 (position c3) (position c4)
      :: base64url_decode rest
  | String c1 (String c2 (String c3 EmptyString)) =>
      [octet1 (position c1) (position c2);
       octet2 (position c2) (position c3)]
  | String c1 (String c2 EmptyString) =>
      [octet1 (position c1) (position c2)]
  | _ => []
  end.

(** Characters allowed in a URL-safe base64 field, and base-36 digits. *)
Definition is_url_safe (c : ascii) : bool := (position c <? 64)%Z.

Definition is_digit36 (c : ascii) : bool :=
  match value36 c with Some _ => true | None => false end.

Fixpoint all_chars (p : ascii -> bool) (s : string) : bool :=
  match s with
  | EmptyString => true
  | String c r => p c && all_chars p r
  end.

(** [s.toLowerCase()] on the letters [A-Z]; every other byte is kept.
    (No letter outside ASCII lower-cases to a hexadecimal digit, so
    comparing the result with a hexadecimal string gives the verdict of
    the full Unicode mapping.) *)
Definition lower_char (c : ascii) : ascii :=
  let n := N_of_ascii c in
  if ((65 <=? n) && (n <=? 90))%N then ascii_of_N (n + 32) else c.

Fixpoint toLowerCase (s : string) : string :=
  match s with
  | EmptyString => EmptyString
  | String c r => String (lower_char c) (toLowerCase r)
  end.

Definition upper_char (c : ascii) : ascii :=
  let n := N_of_ascii c in
  if ((97 <=? n) && (n <=? 122))%N then ascii_of_N (n - 32) else c.

Fixpoint toUpperCase (s : string) : string :=
  match s with
  | EmptyString => EmptyString
  | String c r => String (upper_char c) (toUpperCase r)
  end.

End Encoding.

(** ** SHA-1 (FIPS 180-4), the digest behind [createHash('sha1')]

    The properties below hold for any digest function; this one makes the
    examples run on the real algorithm. *)

Module Sha1.

Definition w32 (x : Z) : Z := Z.land x 0xFFFFFFFF.

Definition rotl (n x : Z) : Z :=
  w32 (Z.lor (Z.shiftl x n) (Z.shiftr x (32 - n))).

Definition of_byte (b : Byte.byte) : Z := Z.of_N (Byte.to_N b).

Definition to_byte (z : Z) : Byte.byte :=
  match Byte.of_N (Z.to_N (Z.land z 0xFF)) with
  | Some b => b
  | None => Byte.x00
  end.

(** Big-endian bytes of a [k]-byte number. *)
Fixpoint be_bytes (k : nat) (x : Z) : list Z :=
  match k with
  | O => []
  | S k' => Z.land (Z.shiftr x (8 * Z.of_nat k')) 0xFF :: be_bytes k' x
  end.

(** The message, a [1] bit, zeros up to 56 modulo 64, and the bit length
    on 8 bytes. *)
Definition pad (msg : list Z) : list Z :=
  let len := Z.of_nat (length msg) in
  msg ++ [0x80] ++ replicate (Z.to_nat ((55 - len) mod 64)) 0
      ++ be_bytes 8 (8 * len).

Fixpoint words (bs : list Z) : list Z :=
  match bs with
  | a :: b :: c :: d :: rest =>
      Z.lor (Z.shiftl a 24) (Z.lor (Z.shiftl b 16) (Z.lor (Z.shiftl c 8) d))
      :: words rest
  | _ => []
  end.

(** The message schedule, most recent word first. *)
Fixpoint schedule (n : nat) (rev_w : list Z) : list Z :=
  match n with
  | O => rev_w
  | S n' =>
      schedule n'
        (rotl 1 (Z.lxor (Z.lxor (nth 2 rev_w 0) (nth 7 rev_w 0))
                   (Z.lxor (nth 13 rev_w 0) (nth 15 rev_w 0)))
         :: rev_w)
  end.

Definition state : Type := (Z * Z * Z * Z * Z)%type.

Definition round (t : Z) (st : state) (w : Z) : state :=
  let '(a, b, c, d, e) := st in
  let '(f, k) :=
    if t <? 20 then
      (Z.lor (Z.land b c) (Z.land (Z.lxor b 0xFFFFFFFF) d), 0x5A827999)
    else if t <? 40 then (Z.lxor (Z.lxor b c) d, 0x6ED9EBA1)
    else if t <? 60 then
      (Z.lor (Z.lor (Z.land b c) (Z.land b d)) (Z.land c d), 0x8F1BBCDC)
    else (Z.lxor (Z.lxor b c) d, 0xCA62C1D6) in
  (w32 (rotl 5 a + f + e + k + w), a, rotl 30 b, c, d).

Fixpoint rounds (t : Z) (ws : list Z) (st : state) : state :=
  match ws with
  | [] => st
  | w :: rest => rounds (t + 1) rest (round t st w)
  end.

Definition compress (h : state) (block : list Z) : state :=
  let '(h0, h1, h2, h3, h4) := h in
  let '(a, b, c, d, e) := rounds 0 (rev (schedule 64 (rev block))) h in
  (w32 (h0 + a), w32 (h1 + b), w32 (h2 + c), w32 (h3 + d), w32 (h4 + e)).

(** Folding [compress] over the 16-word blocks; [n] bounds their number. *)
Fixpoint blocks (n : nat) (ws : list Z) (h : state) : state :=
  match n, ws with
  | S n', _ :: _ => blocks n' (drop 16 ws) (compress h (take 16 ws))
  | _, _ => h
  end.

Definition initial : state :=
  (0x67452301, 0xEFCDAB89, 0x98BADCFE, 0x10325476, 0xC3D2E1F0).

Definition digest (data : list Byte.byte) : list Byte.byte :=
  let ws := words (pad (List.map of_byte data)) in
  let '(h0, h1, h2, h3, h4) := blocks (length ws) ws initial in
  List.map to_byte
    (be_bytes 4 h0 ++ be_bytes 4 h1 ++ be_bytes 4 h2 ++ be_bytes 4 h3
       ++ be_bytes 4 h4).

End Sha1.

(** ** SHA-256 (FIPS 180-4), the digest behind [createHash('sha256')] *)

Module Sha256.

Definition rotr (n x : Z) : Z :=
  Sha1.w32 (Z.lor (Z.shiftr x n) (Z.shiftl x (32 - n))).

(** The first primes, by trial division. *)
Definition is_prime (n : nat) : bool :=
  forallb (fun d => negb (Nat.eqb (Nat.modulo n d) 0)) (seq 2 (n - 2)).

Definition primes (bound : nat) : list Z :=
  List.map Z.of_nat (List.filter is_prime (seq 2 bound)).

(** Integer cube root by bisection on the bits below [2 ^ bits]. *)
Fixpoint cube_root (bits : nat) (n r : Z) : Z :=
  match bits with
  | O => r
  | S bits' =>
      let r' := r + 2 ^ Z.of_nat bits' in
      cube_root bits' n (if r' * r' * r' <=? n then r' else r)
  end.

(** The round constants: the first 32 bits of the fractional parts of the
    cube roots of the first 64 primes. *)
Definition K : list Z :=
  Eval vm_compute in
    List.map (fun p => Sha1.w32 (cube_root 36 (p * 2 ^ 96) 0)) (primes 310).

Definition small_sigma0 (x : Z) : Z :=
  Z.lxor (Z.lxor (rotr 7 x) (rotr 18 x)) (Z.shiftr x 3).

Definition small_sigma1 (x : Z) : Z :=
  Z.lxor (Z.lxor (rotr 17 x) (rotr 19 x)) (Z.shiftr x 10).

Definition big_sigma0 (x : Z) : Z :=
  Z.lxor (Z.lxor (rotr 2 x) (rotr 13 x)) (rotr 22 x).

Definition big_sigma1 (x : Z) : Z :=
  Z.lxor (Z.lxor (rotr 6 x) (rotr 11 x)) (rotr 25 x).

(** The message schedule, most recent word first. *)
Fixpoint schedule (n : nat) (rev_w : list Z) : list Z :=
  match n with
  | O => rev_w
  | S n' =>
      schedule n'
        (Sha1.w32 (small_sigma1 (nth 1 rev_w 0) + nth 6 rev_w 0
                   + small_sigma0 (nth 14 rev_w 0) + nth 15 rev_w 0)
         :: rev_w)
  end.

Definition state : Type := (Z * Z * Z * Z * Z * Z * Z * Z)%type.

Definition round (st : state) (kw : Z * Z) : state :=
  let '(a, b, c, d, e, f, g, h) := st in
  let '(k, w) := kw in
  let ch := Z.lxor (Z.land e f) (Z.land (Z.lxor e 0xFFFFFFFF) g) in
  let maj := Z.lxor (Z.lxor (Z.land a b) (Z.land a c)) (Z.land b c) in
  let t1 := h + big_sigma1 e + ch + k + w in
  let t2 := big_sigma0 a + maj in
  (Sha1.w32 (t1 + t2), a, b, c, Sha1.w32 (d + t1), e, f, g).

Definition compress (hs : state) (block : list Z) : state :=
  let '(h0, h1, h2, h3, h4, h5, h6, h7) := hs in
  let '(a, b, c, d, e, f, g, h) :=
    fold_left round (combine K (rev (schedule 48 (rev block)))) hs in
  (Sha1.w32 (h0 + a), Sha1.w32 (h1 + b), Sha1.w32 (h2 + c),
   Sha1.w32 (h3 + d), Sha1.w32 (h4 + e), Sha1.w32 (h5 + f),
   Sha1.w32 (h6 + g), Sha1.w32 (h7 + h)).

Fixpoint blocks (n : nat) (ws : list Z) (hs : state) : state :=
  match n, ws with
  | S n', _ :: _ => blocks n' (drop 16 ws) (compress hs (take 16 ws))
  | _, _ => hs
  end.

(** The initial hash value: the first 32 bits of the fractional parts of
    the square roots of the first 8 primes. *)
Definition initial_word (p : Z) : Z := Sha1.w32 (Z.sqrt (p * 2 ^ 64)).

Definition initial : state :=
  Eval vm_compute in
    (initial_word 2, initial_word 3, initial_word 5, initial_word 7,
     initial_word 11, initial_word 13, initial_word 17, initial_word 19).

Definition digest (data : list Byte.byte) : list Byte.byte :=
  let ws := Sha1.words (Sha1.pad (List.map Sha1.of_byte data)) in
  let '(h0, h1, h2, h3, h4, h5, h6, h7) := blocks (length ws) ws initial in
  List.map Sha1.to_byte
    (Sha1.be_bytes 4 h0 ++ Sha1.be_bytes 4 h1 ++ Sha1.be_bytes 4 h2
       ++ Sha1.be_bytes 4 h3 ++ Sha1.be_bytes 4 h4 ++ Sha1.be_bytes 4 h5
       ++ Sha1.be_bytes 4 h6 ++ Sha1.be_bytes 4 h7).

End Sha256.

(** ** HMAC (RFC 2104) over SHA-256, the MAC behind
    [createHmac('sha256', key)] *)

Module Hmac.

Definition block_size : nat := 64.

Definition xor_with (pad : Z) (b : Byte.byte) : Byte.byte :=
  Sha1.to_byte (Z.lxor (Sha1.of_byte b) pad).

Definition block_key (key : list Byte.byte) : list Byte.byte :=
  let k := if (block_size <? length key)%nat then Sha256.digest key else key in
  k ++ replicate (block_size - length k) Byte.x00.

Definition sha256 (key data : list Byte.byte) : list Byte.byte :=
  let k := block_key key in
  Sha256.digest
    (List.map (xor_with 0x5c) k
       ++ Sha256.digest (List.map (xor_with 0x36) k ++ data)).

End Hmac.

(** ** The runtime the code calls into: [crypto], [fs] and the clock *)

Module Node.

(** [fs.Stats], reduced to [stats.mtime.getTime()]. *)
Record Stats : Type := { mtime_getTime : Z }.

Record env : Type := {
  (** [crypto.createHash(algorithm)]: throws when the algorithm is not
      available, otherwise gives the digest of the bytes fed to it. *)
  createHash : string -> Js.result (list Byte.byte -> list Byte.byte);
  (** [fs.statSync(path)] *)
  statSync : string -> Js.result Stats;
  (** [fs.readFileSync(path)] *)
  readFileSync : string -> Js.result (list Byte.byte);
  (** [Date.now()] in milliseconds *)
  Date_now : Z
}.

End Node.

(** ** Entities *)

Module File.
Record t : Type := {
  path : string;
  hash : string;
  size : Z;
  lastModified : Z;
  url : option string
}.
End File.

Module ClusterEntity.
Record t : Type := {
  clusterId : string;
  shards : Z;
  isOnline : bool;
  isBanned : bool;
  isProxyCluster : bool
}.
End ClusterEntity.

Module FileInfo.
Record t : Type := { hash : string; size : Z; lastModified : Z }.
End FileInfo.

(** ** The directory tree [fs] shows to a scan, and POSIX paths *)

Module Fs.

(** What [lstatSync] and [readdirSync] report below a path: a regular
    file, a directory with its entries in the order [readdirSync] lists
    them, a directory whose [readdirSync] throws, anything that is
    neither a file nor a directory for [lstat] (a symbolic link, a
    socket), or a name whose [lstatSync] throws (listed in a directory
    that cannot be searched, or removed since it was listed). *)
#[local] Set Warnings "-register-all".
Inductive entry : Type :=
| RegularFile
| Directory (files : list (string * entry))
| Unreadable (err : Js.error)
| Special
| LstatError (err : Js.error).

(** [lstatSync(path)]: the entry itself stands for its [Stats]. *)
Definition lstatSync (e : entry) : Js.result entry :=
  match e with
  | LstatError err => Js.Throw err
  | _ => Js.Ok e
  end.

Definition isFile (stats : entry) : bool :=
  match stats with
  | RegularFile => true
  | _ => false
  end.

Definition isDirectory (stats : entry) : bool :=
  match stats with
  | Directory _ | Unreadable _ => true
  | _ => false
  end.

Fixpoint ends_with (c : ascii) (s : string) : bool :=
  match s with
  | EmptyString => false
  | String a EmptyString => Ascii.eqb a c
  | String _ r => ends_with c r
  end.

(** [path.join(directory, file)] for a resolved [directory] and the name of
    one of its entries. *)
Definition join (directory file : string) : string :=
  if ends_with "/" directory then (directory ++ file)%string
  else (directory ++ "/" ++ file)%string.

(** [s.substring(n)] *)
Fixpoint substring_from (n : nat) (s : string) : string :=
  match n, s with
  | O, _ => s
  | S n', String _ r => substring_from n' r
  | S _, EmptyString => EmptyString
  end.

(** A monadic [forEach]: the callback may throw, which ends the loop. *)
Fixpoint forEach {A B} (f : A -> B -> Js.result B) (l : list A) (acc : B)
  : Js.result B :=
  match l with
  | [] => Js.Ok acc
  | x :: rest =>
      match f x acc with
      | Js.Ok acc' => forEach f rest acc'
      | Js.Throw e => Js.Throw e
      end
  end.

End Fs.

(** ** [Utilities] *)

Module Utilities.

Import Random Heap.
Local Open Scope string_scope.

Section Generic.
Context {T : Type}.

Definition getRandomElement (array : list T) (g : rng) : option T * rng :=
  if (Z.of_nat (length array) =? 0)%Z then (None, g)
  else
    let '(r, g') := Math_random g in
    let randomIndex := Math_floor_mul r (Z.of_nat (length array)) in
    (Js.index array (Js.Int randomIndex), g').

(** The loop of the branch that allows duplicates: [n] iterations left. *)
Fixpoint pick_with_duplicates (n : nat) (array : list T)
    (result : list (option T)) (g : rng) : list (option T) * rng :=
  match n with
  | O => (result, g)
  | S n' =>
      let '(r, g') := Math_random g in
      let randomIndex := Math_floor_mul r (Z.of_nat (length array)) in
      pick_with_duplicates n' array
        (result ++ [Js.index array (Js.Int randomIndex)]) g'
  end.

(** The loop of the branch that forbids duplicates; it splices the
    picked element out of [tempArray]. *)
Fixpoint pick_without_duplicates (n : nat) (h : gmap positive (list T))
    (tempArray : loc) (result : list (option T)) (g : rng)
  : list (option T) * gmap positive (list T) * rng :=
  match n with
  | O => (result, h, g)
  | S n' =>
      let '(r, g') := Math_random g in
      let randomIndex :=
        Math_floor_mul r (Z.of_nat (length (read h tempArray))) in
      let '(removed, h') := splice1 h tempArray randomIndex in
      pick_without_duplicates n' h' tempArray
        (result ++ [head removed]) g'
  end.

Definition getRandomElements (h : gmap positive (list T)) (array : loc)
    (count : Z) (allowDuplicates : bool) (g : rng)
  : Js.result (list (option T)) * gmap positive (list T) * rng :=
  if allowDuplicates then
    let '(result, g') :=
      pick_with_duplicates (Z.to_nat count) (read h array) [] g in
    (Js.Ok result, h, g')
  else if (count >? Z.of_nat (length (read h array)))%Z then
    (Js.Throw (Js.Error
       "Count cannot be greater than the number of unique elements in the array when duplicates are not allowed."),
     h, g)
  else
    let '(tempArray, h1) := spread h array in
    let '(result, h2, g') :=
      pick_without_duplicates (Z.to_nat count) h1 tempArray [] g in
    (Js.Ok result, h2, g').

End Generic.

Definition sentinel : FileInfo.t :=
  {| FileInfo.hash := "0000000000000000000000000000000000000000";
     FileInfo.size := 0;
     FileInfo.lastModified := 0 |}.

Definition getFileInfoSync (node : Node.env) (filePath : string)
  : FileInfo.t :=
  Js.try_catch
    (let! stats := Node.statSync node filePath in
     let! hash := Node.createHash node "sha256" in
     let! data := Node.readFileSync node filePath in
     Js.Ok {| FileInfo.hash := Encoding.hex (hash data);
              FileInfo.size := Z.of_nat (length data);
              FileInfo.lastModified := Node.mtime_getTime stats |})
    (fun err => sentinel).

Definition toUrlSafeBase64String (buffer : list Byte.byte) : string :=
  Encoding.strip_trailing_eq
    (Encoding.replace_all "/" "_"
       (Encoding.replace_all "+" "-"
          (Encoding.Buffer_toString_base64 buffer))).

(** [None] is the [null] returned when the hash cannot be created. *)
Definition getSign (node : Node.env) (path secret : string)
  : option string :=
  match Node.createHash node "sha1" with
  | Js.Throw e => None
  | Js.Ok sha1 =>
      let timestamp := (Node.Date_now node + 5 * 60 * 1000)%Z in
      let e := Encoding.Number_toString36 timestamp in
      let signBytes := sha1 (Encoding.string_bytes (secret ++ path ++ e)) in
      let sign := toUrlSafeBase64String signBytes in
      Some ("s=" ++ sign ++ "&e=" ++ e)
  end.

(** One line of the report of [checkUrls]. *)
Record UrlHash : Type := { url : string; hash : string }.

(** The body of the loop of [checkUrls] for one URL; [axios_get] is
    [axios.get(url, { responseType: 'arraybuffer' })], which throws when the
    request fails.  The pause after a successful request does not change
    the result. *)
Definition checkUrl (node : Node.env)
    (axios_get : string -> Js.result (list Byte.byte))
    (results : list UrlHash) (url : string) : list UrlHash :=
  Js.try_catch
    (let! responseData := axios_get url in
     let! sha256 := Node.createHash node "sha256" in
     let hash := Encoding.hex (sha256 responseData) in
     Js.Ok (results ++ [{| url := url; hash := hash |}])%list)
    (fun error => (results ++ [{| url := url; hash := "error" |}])%list).

Definition checkUrls (node : Node.env)
    (axios_get : string -> Js.result (list Byte.byte))
    (urls : list string) : list UrlHash :=
  fold_left (checkUrl node axios_get) urls [].

(** [createHmac] is [crypto.createHmac(algorithm, key)], given as the
    function from the bytes fed to it to the MAC; it throws when the
    algorithm is not available, and the exception is not caught. *)
Definition computeSignature
    (createHmac : string -> string
                  -> Js.result (list Byte.byte -> list Byte.byte))
    (challenge signature key : string) : Js.result bool :=
  let! hmac := createHmac "sha256" key in
  let calculatedSignature :=
    Encoding.toLowerCase (Encoding.hex (hmac (Encoding.string_bytes challenge))) in
  Js.Ok (calculatedSignature =? Encoding.toLowerCase signature).

(** [scanDirectory(directory, filePaths, rootPath)], where [dir] is what
    the file system holds at [directory]; the result is the new content of
    [filePaths].  The exceptions of [readdirSync] and of [lstatSync] are
    not caught: they end the scan. *)
Fixpoint scanDirectory (dir : Fs.entry) (directory : string)
    (filePaths : list string) (rootPath : string)
  : Js.result (list string) :=
  match dir with
  | Fs.Directory files =>
      Fs.forEach
        (fun '(file, child) filePaths =>
           let fullPath := Fs.join directory file in
           if String.prefix "." file then Js.Ok filePaths
           else
             match child with
             | Fs.LstatError err => Js.Throw err
             | Fs.RegularFile =>
                 let relativePath :=
                   Encoding.replace_all "\" "/"
                     (Fs.substring_from (String.length rootPath) fullPath) in
                 let relativePath :=
                   if String.prefix "/" relativePath then relativePath
                   else "/" ++ relativePath in
                 let relativePath := "/files" ++ relativePath in
                 Js.Ok (filePaths ++ [relativePath])%list
             | Fs.Directory _ | Fs.Unreadable _ =>
                 scanDirectory child fullPath filePaths rootPath
             | Fs.Special => Js.Ok filePaths
             end)
        files filePaths
  | Fs.Unreadable err => Js.Throw err
  | Fs.LstatError err => Js.Throw err
  | Fs.RegularFile | Fs.Special =>
      Js.Throw (Js.Error "ENOTDIR: not a directory, scandir")
  end.

(** [scanFiles(directoryPath)], with [directoryPath] already resolved and
    [root] what the file system holds there ([None]: [existsSync] is
    false).  The [lstatSync] of the root is not caught either. *)
Definition scanFiles (root : option Fs.entry) (directoryPath : string)
  : Js.result (list string) :=
  match root with
  | Some e =>
      let! stats := Fs.lstatSync e in
      if Fs.isDirectory stats
      then scanDirectory stats directoryPath [] directoryPath
      else Js.Ok []
  | None => Js.Ok []
  end.

End Utilities.

(** ** [FileList] *)

Module FileList.

Import Random.
Local Open Scope string_scope.

Definition SHARD_COUNT : Z := 1000.

Record t : Type := {
  _files : list File.t;
  _clusters : list ClusterEntity.t;
  _shards : list (list File.t)
}.

Definition getShardIndex (value : string) (totalShards : Z) : Js.number :=
  let crcValue := Js.Math_abs (Crc32.str value) in
  Js.rem crcValue totalShards.

(** [shards[shardIndex].push(obj)]; indexing outside the array gives
    [undefined], whose [push] is a [TypeError]. *)
Definition push_into (shards : list (list File.t)) (shardIndex : Js.number)
    (obj : File.t) : Js.result (list (list File.t)) :=
  match shardIndex, Js.index shards shardIndex with
  | Js.Int i, Some bucket => Js.Ok (<[Z.to_nat i := (bucket ++ [obj])%list]> shards)
  | _, _ => Js.Throw (Js.TypeError "Cannot read properties of undefined (reading 'push')")
  end.

Fixpoint forEach_push (objects : list File.t) (totalShards : Z)
    (shards : list (list File.t)) : Js.result (list (list File.t)) :=
  match objects with
  | [] => Js.Ok shards
  | obj :: rest =>
      let shardIndex := getShardIndex (File.path obj) totalShards in
      let! shards' := push_into shards shardIndex obj in
      forEach_push rest totalShards shards'
  end.

(** [Array.from({ length: totalShards }, () => [])] makes an array of
    that length (of length 0 for a negative one) and throws a [RangeError]
    for a length of [2^32] or more. *)
Definition splitIntoShards (objects : list File.t) (totalShards : Z)
  : Js.result (list (list File.t)) :=
  if (2 ^ 32 <=? totalShards)%Z
  then Js.Throw (Js.RangeError "Invalid array length")
  else
    let shards := replicate (Z.to_nat totalShards) [] in
    forEach_push objects totalShards shards.

(** The logging of [notifyUpdateShards] has no effect on the state. *)
Definition notifyUpdateShards (this : t) : Js.result t :=
  let! shards := splitIntoShards (_files this) SHARD_COUNT in
  Js.Ok {| _files := _files this;
           _clusters := _clusters this;
           _shards := shards |}.

Definition constructor (files : option (list File.t))
    (clusters : option (list ClusterEntity.t)) : Js.result t :=
  notifyUpdateShards
    {| _files := match files with Some fs => fs | None => [] end;
       _clusters := match clusters with Some cs => cs | None => [] end;
       _shards := [] |}.

Definition set_files (this : t) (files : list File.t) : Js.result t :=
  notifyUpdateShards
    {| _files := files;
       _clusters := _clusters this;
       _shards := _shards this |}.

Definition set_clusters (this : t) (clusters : list ClusterEntity.t) : t :=
  {| _files := _files this;
     _clusters := clusters;
     _shards := _shards this |}.

(** The tail shared by both branches of [getFiles]: scan one bucket. *)
Definition scan_bucket (this : t) (index : Js.number) (value : string)
  : Js.result (list File.t) :=
  match Js.index (_shards this) index with
  | Some bucket =>
      Js.Ok (List.filter (fun file => File.path file =? value) bucket)
  | None =>
      Js.Throw (Js.TypeError "Cannot read properties of undefined (reading 'filter')")
  end.

Definition getFiles (this : t) (type value : string)
  : Js.result (list File.t) :=
  if type =? "path" then
    scan_bucket this (getShardIndex value SHARD_COUNT) value
  else if type =? "hash" then
    let value' :=
      Js.or_default
        (option_map File.path
           (List.find (fun file => File.hash file =? value) (_files this)))
        "" in
    scan_bucket this (getShardIndex value' SHARD_COUNT) value'
  else Js.Throw (Js.Error "Invalid type").

(** [arr.filter((x, index) => p x index)], counting from [i]. *)
Fixpoint filter_indexed {A} (p : A -> Z -> bool) (i : Z) (arr : list A)
  : list A :=
  match arr with
  | [] => []
  | x :: rest =>
      if p x i then x :: filter_indexed p (i + 1) rest
      else filter_indexed p (i + 1) rest
  end.

Definition getAvailableFiles (this : t) (cluster : ClusterEntity.t)
  : list File.t :=
  List.filter
    (fun f => Js.truthy (File.url f)
              || negb (ClusterEntity.isProxyCluster cluster))
    (concat
       (filter_indexed
          (fun _ index => (ClusterEntity.shards cluster >=? index)%Z)
          0 (_shards this))).

Definition availableInCluster (file : File.t) (cluster : ClusterEntity.t)
  : bool :=
  if negb (Js.truthy (File.url file)) && ClusterEntity.isProxyCluster cluster
  then false
  else
    let index := getShardIndex (File.path file) SHARD_COUNT in
    Js.leb index (Js.Int (ClusterEntity.shards cluster)).

(** The [for ... of] loop pushing the clusters that pass the test. *)
Fixpoint push_available (file : File.t) (values : list ClusterEntity.t)
    (availableClusters : list ClusterEntity.t) : list ClusterEntity.t :=
  match values with
  | [] => availableClusters
  | cluster :: rest =>
      push_available file rest
        (if availableInCluster file cluster
         then (availableClusters ++ [cluster])%list
         else availableClusters)
  end.

Definition getAvailableClusters (this : t) (file : option File.t)
    (clusters : option (list ClusterEntity.t)) : list ClusterEntity.t :=
  let values :=
    List.filter
      (fun c => ClusterEntity.isOnline c && negb (ClusterEntity.isBanned c))
      (match clusters with Some cs => cs | None => _clusters this end) in
  match file with
  | None => values
  | Some file => push_available file values []
  end.

(** [getRandomElement(availableClusters) || null]: a cluster object is
    truthy, so only [undefined] becomes [null] (both are [None]).  The
    [ip] argument is not used by the method. *)
Definition randomAvailableCluster (this : t) (file : File.t)
    (clusters : option (list ClusterEntity.t)) (ip : option string)
    (g : rng)
  : option ClusterEntity.t * rng :=
  let availableClusters := getAvailableClusters this (Some file) clusters in
  Utilities.getRandomElement availableClusters g.

(** [getFile]: by path it scans one bucket, by hash the whole catalog;
    [None] is [undefined]. *)
Definition getFile (this : t) (type value : string)
  : Js.result (option File.t) :=
  if type =? "path" then
    match Js.index (_shards this) (getShardIndex value SHARD_COUNT) with
    | Some bucket =>
        Js.Ok (List.find (fun file => File.path file =? value) bucket)
    | None =>
        Js.Throw (Js.TypeError "Cannot read properties of undefined (reading 'find')")
    end
  else if type =? "hash" then
    Js.Ok (List.find (fun file => File.hash file =? value) (_files this))
  else Js.Throw (Js.Error "Invalid type").

(** [exists(type, value)] *)
Definition exists_ (this : t) (type value : string) : Js.result bool :=
  let! files := getFiles this type value in
  Js.Ok (Z.of_nat (length files) >? 0)%Z.

End FileList.

(** ** Notions used to state the properties *)

Module Spec.

(** The shard of a record, as a position in the array of buckets. *)
Definition shard_of (totalShards : Z) (f : File.t) : nat :=
  Z.to_nat (Z.abs (Crc32.str (File.path f)) mod totalShards).

(** The records of [files] that belong to shard [i], in catalog order. *)
Definition bucket (totalShards : Z) (files : list File.t) (i : nat)
  : list File.t :=
  List.filter (fun f => Nat.eqb (shard_of totalShards f) i) files.

(** The serving rule of the code: shard indices up to and including
    [cluster.shards], and an origin URL for proxy clusters. *)
Definition served (file : File.t) (cluster : ClusterEntity.t) : bool :=
  (Z.of_nat (shard_of FileList.SHARD_COUNT file)
   <=? ClusterEntity.shards cluster)
  && (Js.truthy (File.url file)
      || negb (ClusterEntity.isProxyCluster cluster)).

(** The serving rule as the specification words it: shard indices
    strictly below the capacity. *)
Definition served_strict (file : File.t) (cluster : ClusterEntity.t)
  : bool :=
  (Z.of_nat (shard_of FileList.SHARD_COUNT file)
   <? ClusterEntity.shards cluster)
  && (Js.truthy (File.url file)
      || negb (ClusterEntity.isProxyCluster cluster)).

Definition healthy (cluster : ClusterEntity.t) : bool :=
  ClusterEntity.isOnline cluster && negb (ClusterEntity.isBanned cluster).

Definition eligible (file : File.t) (cluster : ClusterEntity.t) : bool :=
  healthy cluster && served file cluster.

Definition eligible_strict (file : File.t) (cluster : ClusterEntity.t)
  : bool :=
  healthy cluster && served_strict file cluster.

(** The state of a [FileList] whose buckets were built from its files. *)
Definition synced (this : FileList.t) : Prop :=
  FileList.splitIntoShards (FileList._files this) FileList.SHARD_COUNT
  = Js.Ok (FileList._shards this).

(** The states of a [FileList] that its constructor and setters produce. *)
Inductive reachable : FileList.t -> Prop :=
| reach_constructor files clusters this :
    FileList.constructor files clusters = Js.Ok this -> reachable this
| reach_set_files this files this' :
    reachable this ->
    FileList.set_files this files = Js.Ok this' -> reachable this'
| reach_set_clusters this clusters :
    reachable this -> reachable (FileList.set_clusters this clusters).

End Spec.

(** ** Notions used to state what a scan returns *)

Module ScanSpec.

Local Open Scope string_scope.

Definition hidden (name : string) : bool := String.prefix "." name.

(** The regular files of a tree that no name starting with a dot hides,
    as paths relative to [rel], in the order of the listings. *)
Fixpoint visible_files (e : Fs.entry) (rel : string) : list string :=
  match e with
  | Fs.RegularFile => [rel]
  | Fs.Directory files =>
      flat_map
        (fun '(name, child) =>
           if hidden name then []
           else visible_files child (rel ++ "/" ++ name))
        files
  | _ => []
  end.

(** The first error, in the order of the scan, of a directory that
    cannot be read or of an entry that cannot be examined. *)
Fixpoint first_error (e : Fs.entry) : option Js.error :=
  match e with
  | Fs.Unreadable err => Some err
  | Fs.LstatError err => Some err
  | Fs.Directory files =>
      fold_right
        (fun '(name, child) later =>
           if hidden name then later
           else match first_error child with
                | Some err => Some err
                | None => later
                end)
        None files
  | _ => None
  end.

(** The tree without the entries whose name starts with a dot. *)
Fixpoint prune (e : Fs.entry) : Fs.entry :=
  match e with
  | Fs.Directory files =>
      Fs.Directory
        (flat_map
           (fun '(name, child) =>
              if hidden name then [] else [(name, prune child)])
           files)
  | _ => e
  end.

(** Names as a file system has them: not empty, not ending in a slash. *)
Fixpoint proper_names (e : Fs.entry) : bool :=
  match e with
  | Fs.Directory files =>
      forallb
        (fun '(name, child) =>
           negb (String.eqb name "") && negb (Fs.ends_with "/" name)
           && proper_names child)
        files
  | _ => true
  end.

(** The path published for a relative path. *)
Definition published (rel : string) : string :=
  "/files" ++ Encoding.replace_all "\" "/" rel.

End ScanSpec.

(** ** Concrete inputs used in examples *)

Module Examples.

Local Open Scope string_scope.

(** A record of shard 0 without origin URL. *)
Definition file0 : File.t :=
  {| File.path := "/files/797.jar"; File.hash := "h0";
     File.size := 10; File.lastModified := 1000; File.url := None |}.

(** The record of scenario 9 of the specification (shard 390). *)
Definition file_a : File.t :=
  {| File.path := "/files/a.txt"; File.hash := "h1";
     File.size := 10; File.lastModified := 1000; File.url := None |}.

(** A record whose path is the empty string (shard 0). *)
Definition file_nopath : File.t :=
  {| File.path := ""; File.hash := "h2";
     File.size := 0; File.lastModified := 0; File.url := None |}.

(** A healthy, non-proxy cluster with [shards = 0]. *)
Definition cluster0 : ClusterEntity.t :=
  {| ClusterEntity.clusterId := "c0"; ClusterEntity.shards := 0;
     ClusterEntity.isOnline := true; ClusterEntity.isBanned := false;
     ClusterEntity.isProxyCluster := false |}.

(** A healthy, non-proxy cluster with [shards = SHARD_COUNT]. *)
Definition cluster_full : ClusterEntity.t :=
  {| ClusterEntity.clusterId := "c1"; ClusterEntity.shards := 1000;
     ClusterEntity.isOnline := true; ClusterEntity.isBanned := false;
     ClusterEntity.isProxyCluster := false |}.

(** A generator, and heaps holding one source array at location 1. *)
Definition rng0 : Random.rng :=
  {| Random.draws :=
       fun n => (Z.of_nat n * 6364136223846793005 + 1442695040888963407)%Z;
     Random.pos := 0 |}.

Definition heap3 : gmap positive (list Z) :=
  {[ 1%positive := [10; 20; 30]%Z ]}.

(** A generator that always draws [7505999378950826 / 2^53], whose
    product with 6 is rounded up to the double 5, and a source of six. *)
Definition rng_tie : Random.rng :=
  {| Random.draws := fun _ => 7505999378950826%Z; Random.pos := 0 |}.

Definition heap6 : gmap positive (list Z) :=
  {[ 1%positive := [10; 20; 30; 40; 50; 60]%Z ]}.

Definition heap_empty_source : gmap positive (list Z) :=
  {[ 1%positive := [] ]}.

(** A runtime without SHA-1 (every [createHash] throws) and without
    files. *)
Definition node_bare : Node.env :=
  {| Node.createHash :=
       fun _ => Js.Throw (Js.Error "Digest method not supported");
     Node.statSync :=
       fun _ => Js.Throw (Js.Error "ENOENT: no such file or directory");
     Node.readFileSync :=
       fun _ => Js.Throw (Js.Error "ENOENT: no such file or directory");
     Node.Date_now := 1730000000000 |}.

(** A runtime with SHA-1 and SHA-256, one file ["/data/abc.txt"] holding
    ["abc"], and the clock stopped. *)
Definition node_std : Node.env :=
  {| Node.createHash :=
       fun algorithm =>
         if String.eqb algorithm "sha1" then Js.Ok Sha1.digest
         else if String.eqb algorithm "sha256" then Js.Ok Sha256.digest
         else Js.Throw (Js.Error "Digest method not supported");
     Node.statSync :=
       fun p =>
         if String.eqb p "/data/abc.txt"
         then Js.Ok {| Node.mtime_getTime := 1729999000000 |}
         else Js.Throw (Js.Error "ENOENT: no such file or directory");
     Node.readFileSync :=
       fun p =>
         if String.eqb p "/data/abc.txt"
         then Js.Ok (Encoding.string_bytes "abc")
         else Js.Throw (Js.Error "ENOENT: no such file or directory");
     Node.Date_now := 1730000000000 |}.

(** [crypto.createHmac] of a runtime offering HMAC-SHA-256 only. *)
Definition createHmac_std (algorithm key : string)
  : Js.result (list Byte.byte -> list Byte.byte) :=
  if String.eqb algorithm "sha256"
  then Js.Ok (Hmac.sha256 (Encoding.string_bytes key))
  else Js.Throw (Js.Error "Invalid digest").

(** A network where one URL answers with ["abc"] and every other request
    fails. *)
Definition axios_one (u : string) : Js.result (list Byte.byte) :=
  if String.eqb u "https://origin/abc"
  then Js.Ok (Encoding.string_bytes "abc")
  else Js.Throw (Js.Error "Request failed with status code 404").

(** A small tree: two files, a hidden directory that cannot be read, and
    a subdirectory with one file and one hidden file. *)
Definition tree0 : Fs.entry :=
  Fs.Directory
    [("a.txt", Fs.RegularFile);
     (".git", Fs.Unreadable (Js.Error "EACCES: permission denied, scandir"));
     ("lib", Fs.Directory [("b.jar", Fs.RegularFile);
                           (".hidden", Fs.RegularFile);
                           ("link", Fs.Special)]);
     ("c.txt", Fs.RegularFile)].

(** A directory that can be listed but not searched: the [lstatSync] of
    its entry throws. *)
Definition tree_unsearchable : Fs.entry :=
  Fs.Directory
    [("a.txt", Fs.RegularFile);
     ("r_only",
      Fs.Directory
        [("x.txt",
          Fs.LstatError (Js.Error "EACCES: permission denied, lstat"))])].

(** A tree with a visible directory that cannot be read. *)
Definition tree_locked : Fs.entry :=
  Fs.Directory
    [("a.txt", Fs.RegularFile);
     ("private", Fs.Unreadable (Js.Error "EACCES: permission denied, scandir"))].

Definition empty_list : FileList.t :=
  {| FileList._files := []; FileList._clusters := [];
     FileList._shards := [] |}.

(** [new FileList(files, clusters)] *)
Definition build (files : list File.t) (clusters : list ClusterEntity.t)
  : FileList.t :=
  match FileList.constructor (Some files) (Some clusters) with
  | Js.Ok this => this
  | Js.Throw _ => empty_list
  end.

Definition catalog0 : FileList.t :=
  Eval vm_compute in build [file0; file_a] [cluster0; cluster_full].

Definition catalog_nopath : FileList.t :=
  Eval vm_compute in build [file_nopath; file_a] [cluster_full].

End Examples.

(** * Properties *)

(** ** The checksum stays within the signed 32-bit range *)

Section Crc32Range.

Lemma lxor_below (n a b : Z) :
  0 <= n -> 0 <= a < 2 ^ n -> 0 <= b < 2 ^ n -> 0 <= Z.lxor a b < 2 ^ n.
Proof.
  intros Hn Ha Hb.
  assert (Hx : 0 <= Z.lxor a b) by (apply Z.lxor_nonneg; lia).
  split; [exact Hx|].
  destruct (Z.eq_dec (Z.lxor a b) 0) as [->|Hne]; [lia|].
  assert (Hpos : 0 < n).
  { destruct (Z.eq_dec n 0) as [->|]; [|lia].
    change (2 ^ 0) with 1 in *.
    assert (a = 0) as -> by lia. assert (b = 0) as -> by lia.
    contradiction Hne. reflexivity. }
  apply Z.log2_lt_pow2; [lia|].
  eapply Z.le_lt_trans; [apply Z.log2_lxor; lia|].
  apply Z.max_lub_lt.
  - destruct (Z.eq_dec a 0) as [->|]; [simpl; lia|].
    apply Z.log2_lt_pow2; lia.
  - destruct (Z.eq_dec b 0) as [->|]; [simpl; lia|].
    apply Z.log2_lt_pow2; lia.
Qed.

Lemma step_bit_below (c : Z) :
  0 <= c < 2 ^ 32 -> 0 <= Crc32.step_bit c < 2 ^ 32.
Proof.
  intros Hc. unfold Crc32.step_bit.
  assert (Hs : 0 <= Z.shiftr c 1 < 2 ^ 32).
  { rewrite Z.shiftr_div_pow2 by lia.
    change (2 ^ 32) with 4294967296 in *. change (2 ^ 1) with 2.
    split.
    - apply Z.div_pos; lia.
    - apply Z.div_lt_upper_bound; lia. }
  destruct (Z.testbit c 0); [|exact Hs].
  apply lxor_below; [lia|exact Hs|unfold Crc32.poly; lia].
Qed.

Lemma step_byte_below (c b : Z) :
  0 <= c < 2 ^ 32 -> 0 <= Crc32.step_byte c b < 2 ^ 32.
Proof.
  intros Hc. unfold Crc32.step_byte.
  assert (Hb : 0 <= Z.land b 255 < 2 ^ 32).
  { change 255 with (Z.ones 8). rewrite Z.land_ones by lia.
    pose proof (Z.mod_pos_bound b (2 ^ 8) ltac:(lia)) as Hm.
    change (2 ^ 32) with 4294967296. change (2 ^ 8) with 256 in *. lia. }
  pose proof (lxor_below 32 c (Z.land b 255) ltac:(lia) Hc Hb) as H0.
  generalize dependent (Z.lxor c (Z.land b 255)). intros x Hx.
  do 8 (apply step_bit_below in Hx). exact Hx.
Qed.

Lemma fold_step_byte_below (data : list Z) (c : Z) :
  0 <= c < 2 ^ 32 -> 0 <= fold_left Crc32.step_byte data c < 2 ^ 32.
Proof.
  revert c. induction data as [|b data IH]; intros c Hc; simpl.
  - exact Hc.
  - apply IH, step_byte_below, Hc.
Qed.

Lemma crc32_str_range (value : string) :
  - 2 ^ 31 <= Crc32.str value < 2 ^ 31.
Proof.
  unfold Crc32.str, Crc32.buf, Crc32.to_int32.
  pose proof (fold_step_byte_below (Js.bytes_of_string value) 0xFFFFFFFF
                ltac:(lia)) as Hf.
  pose proof (lxor_below 32 _ 0xFFFFFFFF ltac:(lia) Hf ltac:(lia)) as Hx.
  destruct (Z.ltb_spec (Z.lxor
    (fold_left Crc32.step_byte (Js.bytes_of_string value) 4294967295)
    4294967295) (2 ^ 31)); lia.
Qed.

End Crc32Range.

(** Check values of the checksum (CRC-32/ISO-HDLC: ["123456789"] gives
    [0xCBF43926], read as a signed integer). *)
Example crc32_check_value : Crc32.str "123456789" = 0xCBF43926 - 2 ^ 32.
Proof. vm_compute. reflexivity. Qed.

Example crc32_empty : Crc32.str "" = 0.
Proof. reflexivity. Qed.

(** ** Shard index *)

Lemma getShardIndex_pos (value : string) (N : Z) :
  0 < N ->
  FileList.getShardIndex value N = Js.Int (Z.abs (Crc32.str value) mod N).
Proof.
  intros HN. unfold FileList.getShardIndex, Js.rem, Js.Math_abs.
  destruct (Z.eqb_spec N 0) as [->|_]; [lia|].
  rewrite Z.rem_mod_nonneg by lia. reflexivity.
Qed.

(** C4. For a positive number of shards, [getShardIndex] is the absolute
    value of the CRC-32 of the path reduced modulo the number of shards, an
    integer in [[0, N)]; being a function of its two arguments alone, equal
    arguments give equal results. *)
Theorem getShardIndex_spec (p : string) (N : Z) :
  0 < N ->
  exists i : Z,
    FileList.getShardIndex p N = Js.Int i /\
    i = Z.abs (Crc32.str p) mod N /\
    0 <= i < N /\
    (forall p' N', p' = p -> N' = N ->
                   FileList.getShardIndex p' N' = Js.Int i).
Proof.
  intros HN. exists (Z.abs (Crc32.str p) mod N).
  split; [apply getShardIndex_pos, HN|].
  split; [reflexivity|].
  split; [apply Z.mod_pos_bound, HN|].
  intros p' N' -> ->. apply getShardIndex_pos, HN.
Qed.

Lemma getShardIndex_spec_witness :
  0 < 1000 /\
  exists i : Z,
    FileList.getShardIndex "/files/test.txt" 1000 = Js.Int i /\
    i = Z.abs (Crc32.str "/files/test.txt") mod 1000 /\
    0 <= i < 1000 /\
    (forall p' N', p' = "/files/test.txt"%string -> N' = 1000 ->
                   FileList.getShardIndex p' N' = Js.Int i).
Proof.
  split; [lia|]. apply (getShardIndex_spec "/files/test.txt" 1000). lia.
Defined.

(** The pinned vector of the specification. *)
Example getShardIndex_pinned :
  FileList.getShardIndex "/files/test.txt" FileList.SHARD_COUNT = Js.Int 877.
Proof. vm_compute. reflexivity. Qed.

(** ** The shard partition *)

Section Partition.

Import FileList Spec.

Variable N : Z.
Hypothesis N_pos : 0 < N.
Hypothesis N_array : N < 2 ^ 32.

Lemma shard_of_index (f : File.t) :
  getShardIndex (File.path f) N = Js.Int (Z.of_nat (shard_of N f)).
Proof.
  rewrite getShardIndex_pos by exact N_pos. unfold shard_of.
  pose proof (Z.mod_pos_bound (Z.abs (Crc32.str (File.path f))) N N_pos).
  rewrite Z2Nat.id by lia. reflexivity.
Qed.

Lemma shard_of_lt (f : File.t) : (shard_of N f < Z.to_nat N)%nat.
Proof.
  unfold shard_of.
  pose proof (Z.mod_pos_bound (Z.abs (Crc32.str (File.path f))) N N_pos).
  lia.
Qed.

Lemma index_of_nat {A} (arr : list A) (n : nat) :
  Js.index arr (Js.Int (Z.of_nat n)) = arr !! n.
Proof.
  unfold Js.index. destruct (Z.ltb_spec (Z.of_nat n) 0); [lia|].
  rewrite Nat2Z.id. reflexivity.
Qed.

Lemma bucket_cons_same (obj : File.t) (rest : list File.t) :
  bucket N (obj :: rest) (shard_of N obj) = obj :: bucket N rest (shard_of N obj).
Proof. unfold bucket. simpl. rewrite Nat.eqb_refl. reflexivity. Qed.

Lemma bucket_cons_other (obj : File.t) (rest : list File.t) (i : nat) :
  shard_of N obj <> i -> bucket N (obj :: rest) i = bucket N rest i.
Proof.
  intros Hne. unfold bucket. simpl.
  destruct (Nat.eqb_spec (shard_of N obj) i); [contradiction|reflexivity].
Qed.

(** The loop appends to every bucket the records of its shard, in order,
    and never indexes outside the array. *)
Lemma forEach_push_spec (objects : list File.t) :
  forall shards : list (list File.t),
    length shards = Z.to_nat N ->
    exists shards',
      forEach_push objects N shards = Js.Ok shards' /\
      length shards' = Z.to_nat N /\
      forall i : nat,
        shards' !! i = (fun b => b ++ bucket N objects i) <$> shards !! i.
Proof.
  induction objects as [|obj rest IH]; intros shards Hlen;
    cbn [forEach_push].
  - exists shards. split; [reflexivity|]. split; [exact Hlen|].
    intros i. destruct (shards !! i) as [b|]; simpl; [|reflexivity].
    unfold bucket. simpl. rewrite app_nil_r. reflexivity.
  - rewrite shard_of_index. unfold push_into.
    rewrite index_of_nat, Nat2Z.id.
    pose proof (shard_of_lt obj) as Hlt.
    destruct (lookup_lt_is_Some_2 shards (shard_of N obj)) as [b Hb];
      [lia|].
    rewrite Hb. cbn [Js.bind].
    destruct (IH (<[shard_of N obj := b ++ [obj]]> shards)) as (s' & Hs' & Hl' & Hlook).
    { rewrite length_insert. exact Hlen. }
    exists s'. split; [exact Hs'|]. split; [exact Hl'|].
    intros i. rewrite Hlook.
    destruct (Nat.eq_dec (shard_of N obj) i) as [<-|Hne].
    + rewrite list_lookup_insert_eq by lia. rewrite Hb.
      cbn [fmap option_fmap option_map].
      rewrite bucket_cons_same, <- app_assoc. reflexivity.
    + rewrite list_lookup_insert_ne by exact Hne.
      rewrite (bucket_cons_other obj rest i Hne). reflexivity.
Qed.

Lemma splitIntoShards_buckets (objects : list File.t) :
  splitIntoShards objects N
  = Js.Ok (List.map (bucket N objects) (seq 0 (Z.to_nat N))).
Proof.
  unfold splitIntoShards.
  destruct (Z.leb_spec (2 ^ 32) N) as [Hbig|_]; [lia|].
  destruct (forEach_push_spec objects (replicate (Z.to_nat N) []))
    as (s' & Hs' & Hl' & Hlook).
  { apply length_replicate. }
  rewrite Hs'. f_equal. apply list_eq. intros i.
  rewrite Hlook, list_lookup_fmap.
  destruct (Nat.lt_ge_cases i (Z.to_nat N)) as [Hi|Hi].
  - rewrite lookup_replicate_2 by exact Hi.
    rewrite lookup_seq_lt by exact Hi. reflexivity.
  - rewrite (proj1 (lookup_replicate_None _ _ _) Hi).
    rewrite lookup_seq_ge by exact Hi. reflexivity.
Qed.

End Partition.

(** ** Concatenating buckets selected by a key *)

Section Buckets.

Context {A : Type} (key : A -> nat).

Lemma filter_none (l : list A) : List.filter (fun _ => false) l = [].
Proof. induction l as [|x l IH]; [reflexivity|exact IH]. Qed.

Lemma filter_nowhere (p : A -> bool) (l : list A) :
  (forall x, In x l -> p x = false) -> List.filter p l = [].
Proof.
  induction l as [|x l IH]; intros Hp; [reflexivity|]. simpl.
  rewrite (Hp x) by (left; reflexivity).
  apply IH. intros y Hy. apply Hp. right. exact Hy.
Qed.

Lemma filter_all (p : A -> bool) (l : list A) :
  (forall x, In x l -> p x = true) -> List.filter p l = l.
Proof.
  induction l as [|x l IH]; intros Hp; [reflexivity|]. simpl.
  rewrite (Hp x) by (left; reflexivity).
  rewrite IH; [reflexivity|]. intros y Hy. apply Hp. right. exact Hy.
Qed.

Lemma filter_disjoint_or (p q : A -> bool) (l : list A) :
  (forall x, p x = true -> q x = true -> False) ->
  List.filter (fun x => p x || q x) l ≡ₚ List.filter p l ++ List.filter q l.
Proof.
  intros Hpq. induction l as [|x l IH]; [reflexivity|]. simpl.
  destruct (p x) eqn:Hp, (q x) eqn:Hq; simpl.
  - exfalso. exact (Hpq x Hp Hq).
  - constructor. exact IH.
  - rewrite IH. apply Permutation_middle.
  - exact IH.
Qed.

Lemma concat_buckets_perm (ixs : list nat) (l : list A) :
  NoDup ixs ->
  concat (List.map (fun i => List.filter (fun x => Nat.eqb (key x) i) l) ixs)
  ≡ₚ List.filter (fun x => existsb (Nat.eqb (key x)) ixs) l.
Proof.
  induction ixs as [|i ixs IH]; intros Hnd; simpl.
  - rewrite filter_none. reflexivity.
  - apply NoDup_cons in Hnd as [Hi Hnd].
    rewrite (filter_disjoint_or (fun x => Nat.eqb (key x) i)
               (fun x => existsb (Nat.eqb (key x)) ixs)).
    + apply Permutation_app_head, IH, Hnd.
    + intros x Hx Hex. apply Nat.eqb_eq in Hx. subst i.
      apply existsb_exists in Hex as (j & Hj & Hkj).
      apply Nat.eqb_eq in Hkj. subst j.
      apply Hi, list_elem_of_In, Hj.
Qed.

Lemma existsb_seq (k n : nat) :
  existsb (Nat.eqb k) (seq 0 n) = (k <? n)%nat.
Proof.
  destruct (Nat.ltb_spec k n) as [Hlt|Hge].
  - apply existsb_exists. exists k. split; [|apply Nat.eqb_refl].
    apply in_seq. lia.
  - destruct (existsb (Nat.eqb k) (seq 0 n)) eqn:He; [|reflexivity].
    apply existsb_exists in He as (j & Hj & Hkj).
    apply Nat.eqb_eq in Hkj. subst j. apply in_seq in Hj. lia.
Qed.

End Buckets.

(** ** C3: the partition built by [splitIntoShards] *)

Section PartitionClaim.

Import FileList Spec.

Lemma SHARD_COUNT_pos : 0 < SHARD_COUNT.
Proof. reflexivity. Qed.

Lemma SHARD_COUNT_array : SHARD_COUNT < 2 ^ 32.
Proof. reflexivity. Qed.

Lemma in_bucket (N : Z) (files : list File.t) (i : nat) (f : File.t) :
  In f (bucket N files i) <-> In f files /\ shard_of N f = i.
Proof.
  unfold bucket. rewrite List.filter_In, Nat.eqb_eq. reflexivity.
Qed.

Lemma concat_all_buckets (N : Z) (files : list File.t) :
  0 < N ->
  concat (List.map (bucket N files) (seq 0 (Z.to_nat N))) ≡ₚ files.
Proof.
  intros HN. unfold bucket.
  rewrite (concat_buckets_perm (shard_of N)) by apply NoDup_seq.
  rewrite filter_all; [reflexivity|].
  intros f _. rewrite existsb_seq. apply Nat.ltb_lt, shard_of_lt, HN.
Qed.

End PartitionClaim.

(** C3. [splitIntoShards] on [SHARD_COUNT] shards never throws and yields
    exactly [SHARD_COUNT] buckets; bucket [i] holds, in catalog order, the
    records whose [getShardIndex] is [i], so distinct buckets share no
    record and together they hold exactly the input records; the result
    depends on the records alone, and [notifyUpdateShards] (through the
    [files] setter) stores this same partition whatever the previous
    state was. *)
Theorem splitIntoShards_partition (files : list File.t) :
  exists shards : list (list File.t),
    FileList.splitIntoShards files FileList.SHARD_COUNT = Js.Ok shards /\
    Z.of_nat (length shards) = FileList.SHARD_COUNT /\
    (forall (i : nat) (b : list File.t) (f : File.t),
        shards !! i = Some b ->
        (In f b <->
         In f files /\
         FileList.getShardIndex (File.path f) FileList.SHARD_COUNT
         = Js.Int (Z.of_nat i))) /\
    (forall (i : nat) (b : list File.t),
        shards !! i = Some b ->
        b = List.filter
              (fun f => Nat.eqb (Spec.shard_of FileList.SHARD_COUNT f) i)
              files) /\
    (forall (i j : nat) (bi bj : list File.t) (f : File.t),
        i <> j -> shards !! i = Some bi -> shards !! j = Some bj ->
        In f bi -> ~ In f bj) /\
    concat shards ≡ₚ files /\
    (forall this : FileList.t,
        exists this' : FileList.t,
          FileList.set_files this files = Js.Ok this' /\
          FileList._files this' = files /\
          FileList._shards this' = shards).
Proof.
  pose proof SHARD_COUNT_pos as HN.
  exists (List.map (Spec.bucket FileList.SHARD_COUNT files)
            (seq 0 (Z.to_nat FileList.SHARD_COUNT))).
  assert (Hlook : forall (i : nat) (b : list File.t),
             List.map (Spec.bucket FileList.SHARD_COUNT files)
               (seq 0 (Z.to_nat FileList.SHARD_COUNT)) !! i = Some b ->
             b = Spec.bucket FileList.SHARD_COUNT files i).
  { intros i b Hb. change (@List.map) with (@fmap list _) in Hb.
    rewrite list_lookup_fmap in Hb.
    destruct (seq 0 (Z.to_nat FileList.SHARD_COUNT) !! i) as [k|] eqn:Hk;
      [|discriminate].
    apply lookup_seq in Hk as [-> _]. simpl in Hb. congruence. }
  split; [apply splitIntoShards_buckets; [exact HN|exact SHARD_COUNT_array]|].
  split; [rewrite length_map, length_seq; reflexivity|].
  split.
  { intros i b f Hb. rewrite (Hlook i b Hb), in_bucket.
    rewrite (shard_of_index _ HN). split.
    - intros [Hin <-]. split; [exact Hin|reflexivity].
    - intros [Hin Heq]. split; [exact Hin|].
      injection Heq as Heq. lia. }
  split; [exact Hlook|].
  split.
  { intros i j bi bj f Hij Hbi Hbj Hfi Hfj.
    rewrite (Hlook i bi Hbi) in Hfi. rewrite (Hlook j bj Hbj) in Hfj.
    apply in_bucket in Hfi as [_ Hi]. apply in_bucket in Hfj as [_ Hj].
    congruence. }
  split; [apply concat_all_buckets, HN|].
  intros this. unfold FileList.set_files, FileList.notifyUpdateShards.
  cbn [FileList._files FileList._clusters].
  rewrite (splitIntoShards_buckets _ HN SHARD_COUNT_array). cbn [Js.bind].
  eexists. split; [reflexivity|]. split; reflexivity.
Qed.

(** ** C1: eligible clusters *)

Section Eligibility.

Import FileList Spec.

Lemma push_available_filter (file : File.t)
    (values acc : list ClusterEntity.t) :
  push_available file values acc
  = acc ++ List.filter (availableInCluster file) values.
Proof.
  revert acc. induction values as [|c values IH]; intros acc; simpl.
  - rewrite app_nil_r. reflexivity.
  - rewrite IH. destruct (availableInCluster file c); simpl.
    + rewrite <- app_assoc. reflexivity.
    + reflexivity.
Qed.

Lemma availableInCluster_served (file : File.t) (c : ClusterEntity.t) :
  availableInCluster file c = served file c.
Proof.
  unfold availableInCluster, served.
  rewrite (shard_of_index _ SHARD_COUNT_pos). cbn [Js.leb].
  destruct (Js.truthy (File.url file)), (ClusterEntity.isProxyCluster c);
    cbn [negb andb orb]; rewrite ?andb_true_r, ?andb_false_r; reflexivity.
Qed.

Lemma filter_filter {A} (p q : A -> bool) (l : list A) :
  List.filter q (List.filter p l) = List.filter (fun x => p x && q x) l.
Proof.
  induction l as [|x l IH]; [reflexivity|]. simpl.
  destruct (p x); simpl; [destruct (q x)|]; rewrite ?IH; reflexivity.
Qed.

Lemma getAvailableClusters_filter (this : FileList.t) (file : File.t)
    (clusters : option (list ClusterEntity.t)) :
  getAvailableClusters this (Some file) clusters
  = List.filter (eligible file)
      (match clusters with Some cs => cs | None => _clusters this end).
Proof.
  unfold getAvailableClusters. rewrite push_available_filter. simpl.
  rewrite filter_filter. apply List.filter_ext. intros c.
  rewrite availableInCluster_served. reflexivity.
Qed.

End Eligibility.

(** C1, amended. For every file and pool, [getAvailableClusters]
    returns, in pool order, exactly the clusters that are online, not
    banned, whose [shards] is at least the shard index of the file (the
    comparison is [index <= cluster.shards]), and that are not proxy
    clusters unless the file has a (non-empty) origin URL.  Hence a
    cluster with negative [shards] is eligible for no file, one with
    [shards = 0] only for files of shard 0, and one with
    [shards = SHARD_COUNT] for every file subject only to the proxy rule. *)
Theorem getAvailableClusters_spec (this : FileList.t) (file : File.t)
    (pool : list ClusterEntity.t) :
  FileList.getAvailableClusters this (Some file) (Some pool)
  = List.filter
      (fun c =>
         ClusterEntity.isOnline c && negb (ClusterEntity.isBanned c)
         && ((Z.of_nat (Spec.shard_of FileList.SHARD_COUNT file)
              <=? ClusterEntity.shards c)
             && (Js.truthy (File.url file)
                 || negb (ClusterEntity.isProxyCluster c))))
      pool /\
  FileList.getShardIndex (File.path file) FileList.SHARD_COUNT
  = Js.Int (Z.of_nat (Spec.shard_of FileList.SHARD_COUNT file)) /\
  (forall c, In c (FileList.getAvailableClusters this (Some file) (Some pool))
             -> 0 <= ClusterEntity.shards c) /\
  (forall c, In c (FileList.getAvailableClusters this (Some file) (Some pool))
             -> ClusterEntity.shards c = 0
             -> Spec.shard_of FileList.SHARD_COUNT file = 0%nat) /\
  (forall c, In c pool ->
             ClusterEntity.shards c = FileList.SHARD_COUNT ->
             ClusterEntity.isOnline c = true ->
             ClusterEntity.isBanned c = false ->
             (In c (FileList.getAvailableClusters this (Some file) (Some pool))
              <-> (Js.truthy (File.url file) = true
                   \/ ClusterEntity.isProxyCluster c = false))).
Proof.
  rewrite getAvailableClusters_filter.
  pose proof (shard_of_lt _ SHARD_COUNT_pos file) as Hlt.
  change (Z.to_nat FileList.SHARD_COUNT) with 1000%nat in Hlt.
  split; [reflexivity|].
  split; [apply shard_of_index, SHARD_COUNT_pos|].
  split.
  { intros c Hc. apply List.filter_In in Hc as [_ Hc].
    unfold Spec.eligible, Spec.served in Hc.
    apply andb_prop in Hc as [_ Hc]. apply andb_prop in Hc as [Hc _].
    apply Z.leb_le in Hc. lia. }
  split.
  { intros c Hc H0. apply List.filter_In in Hc as [_ Hc].
    unfold Spec.eligible, Spec.served in Hc.
    apply andb_prop in Hc as [_ Hc]. apply andb_prop in Hc as [Hc _].
    apply Z.leb_le in Hc. lia. }
  intros c Hin Hs Hon Hban. rewrite List.filter_In.
  unfold Spec.eligible, Spec.healthy, Spec.served. rewrite Hs, Hon, Hban.
  change FileList.SHARD_COUNT with 1000.
  assert (Hle : (Z.of_nat (Spec.shard_of 1000 file) <=? 1000) = true)
    by (apply Z.leb_le; change FileList.SHARD_COUNT with 1000 in Hlt; lia).
  rewrite Hle. cbn [negb andb]. rewrite orb_true_iff, negb_true_iff.
  tauto.
Qed.

(** The comparison of the code is not strict: a cluster with [shards = 0]
    is returned for a record of shard 0, which the strict rule excludes. *)
Lemma getAvailableClusters_strict_counterexample :
  ClusterEntity.shards Examples.cluster0 = 0 /\
  FileList.getShardIndex (File.path Examples.file0) FileList.SHARD_COUNT
  = Js.Int 0 /\
  FileList.getAvailableClusters Examples.catalog0 (Some Examples.file0)
    (Some [Examples.cluster0])
  = [Examples.cluster0] /\
  List.filter (Spec.eligible_strict Examples.file0) [Examples.cluster0] = [] /\
  FileList.getAvailableClusters Examples.catalog0 (Some Examples.file0)
    (Some [Examples.cluster0])
  <> List.filter (Spec.eligible_strict Examples.file0) [Examples.cluster0].
Proof.
  split; [reflexivity|].
  split; [vm_compute; reflexivity|].
  split; [vm_compute; reflexivity|].
  split; [vm_compute; reflexivity|].
  vm_compute. discriminate.
Qed.

(** Scenarios 9 and 10 of the specification. *)
Example scenario_full_cluster :
  FileList.getAvailableClusters Examples.catalog0 (Some Examples.file_a)
    (Some [Examples.cluster_full])
  = [Examples.cluster_full].
Proof. vm_compute. reflexivity. Qed.

Example scenario_zero_cluster :
  FileList.getAvailableClusters Examples.catalog0 (Some Examples.file_a)
    (Some [Examples.cluster0])
  = [].
Proof. vm_compute. reflexivity. Qed.

(** ** C2: the records listed for a cluster *)

Section Listing.

Import FileList Spec.

Lemma synced_shards (this : FileList.t) :
  synced this ->
  _shards this
  = List.map (bucket SHARD_COUNT (_files this))
      (seq 0 (Z.to_nat SHARD_COUNT)).
Proof.
  unfold synced. rewrite (splitIntoShards_buckets _ SHARD_COUNT_pos SHARD_COUNT_array).
  intros H. injection H as H. symmetry. exact H.
Qed.

(** Every state the class can reach keeps the buckets in step with the
    files: the constructor and the [files] setter rebuild them, and the
    [clusters] setter leaves both untouched. *)
Lemma constructor_synced (files : option (list File.t))
    (clusters : option (list ClusterEntity.t)) :
  exists this, constructor files clusters = Js.Ok this /\ synced this.
Proof.
  unfold constructor, notifyUpdateShards, synced.
  cbn [_files _clusters].
  rewrite (splitIntoShards_buckets _ SHARD_COUNT_pos SHARD_COUNT_array). cbn [Js.bind].
  eexists. split; [reflexivity|]. cbn [_files _shards].
  apply splitIntoShards_buckets; [exact SHARD_COUNT_pos|exact SHARD_COUNT_array].
Qed.

Lemma set_files_synced (this : FileList.t) (files : list File.t) :
  exists this', set_files this files = Js.Ok this' /\ synced this'.
Proof.
  unfold set_files, notifyUpdateShards, synced.
  cbn [_files _clusters].
  rewrite (splitIntoShards_buckets _ SHARD_COUNT_pos SHARD_COUNT_array). cbn [Js.bind].
  eexists. split; [reflexivity|]. cbn [_files _shards].
  apply splitIntoShards_buckets; [exact SHARD_COUNT_pos|exact SHARD_COUNT_array].
Qed.

Lemma set_clusters_synced (this : FileList.t)
    (clusters : list ClusterEntity.t) :
  synced this -> synced (set_clusters this clusters).
Proof. unfold synced, set_clusters. cbn [_files _shards]. tauto. Qed.

Lemma filter_indexed_map_seq {A} (q : Z -> bool) (B : nat -> A)
    (a n : nat) :
  filter_indexed (fun _ index => q index) (Z.of_nat a)
    (List.map B (seq a n))
  = List.map B (List.filter (fun i => q (Z.of_nat i)) (seq a n)).
Proof.
  revert a. induction n as [|n IH]; intros a; [reflexivity|].
  cbn [seq List.map filter_indexed List.filter].
  replace (Z.of_nat a + 1) with (Z.of_nat (S a)) by lia.
  rewrite IH. destruct (q (Z.of_nat a)); reflexivity.
Qed.

Lemma filter_Permutation_bool {A} (p : A -> bool) (l l' : list A) :
  l ≡ₚ l' -> List.filter p l ≡ₚ List.filter p l'.
Proof.
  induction 1 as [|x l l' _ IH|x y l|l l' l'' _ IH1 _ IH2]; simpl.
  - reflexivity.
  - destruct (p x); [constructor|]; exact IH.
  - destruct (p x), (p y); try reflexivity. apply perm_swap.
  - etransitivity; eassumption.
Qed.

Lemma existsb_filter_seq (q : nat -> bool) (k n : nat) :
  (k < n)%nat ->
  existsb (Nat.eqb k) (List.filter q (seq 0 n)) = q k.
Proof.
  intros Hk. destruct (q k) eqn:Hq.
  - apply existsb_exists. exists k. split; [|apply Nat.eqb_refl].
    apply List.filter_In. split; [apply in_seq; lia|exact Hq].
  - destruct (existsb (Nat.eqb k) (List.filter q (seq 0 n))) eqn:He;
      [|reflexivity].
    apply existsb_exists in He as (j & Hj & Hkj).
    apply Nat.eqb_eq in Hkj. subst j.
    apply List.filter_In in Hj as [_ Hj]. congruence.
Qed.

Lemma getAvailableFiles_perm (this : FileList.t) (c : ClusterEntity.t) :
  synced this ->
  getAvailableFiles this c
  ≡ₚ List.filter (fun f => served f c) (_files this).
Proof.
  intros Hs. unfold getAvailableFiles.
  rewrite (synced_shards _ Hs).
  rewrite (filter_indexed_map_seq
             (fun index => ClusterEntity.shards c >=? index)
             (bucket SHARD_COUNT (_files this)) 0).
  unfold served.
  rewrite <- (filter_filter
                (fun f => Z.of_nat (shard_of SHARD_COUNT f)
                          <=? ClusterEntity.shards c)).
  apply filter_Permutation_bool. unfold bucket.
  rewrite (concat_buckets_perm (shard_of SHARD_COUNT)).
  - erewrite List.filter_ext; [reflexivity|].
    intros f. cbv beta.
    rewrite existsb_filter_seq by apply shard_of_lt, SHARD_COUNT_pos.
    rewrite Z.geb_leb. reflexivity.
  - apply NoDup_ListNoDup, List.NoDup_filter, NoDup_ListNoDup, NoDup_seq.
Qed.

End Listing.

(** C2, amended. For a [FileList] whose buckets are in step with its
    files, [getAvailableFiles] returns each catalog record whose shard
    index is at most [cluster.shards] (the comparison is
    [cluster.shards >= index]), once per occurrence and grouped by shard,
    except that for a proxy cluster the records without a (non-empty)
    origin URL are left out; for a non-proxy cluster no record is left out
    for lacking one. *)
Theorem getAvailableFiles_spec (this : FileList.t)
    (cluster : ClusterEntity.t) :
  Spec.synced this ->
  FileList.getAvailableFiles this cluster
  ≡ₚ List.filter
       (fun f =>
          (Z.of_nat (Spec.shard_of FileList.SHARD_COUNT f)
           <=? ClusterEntity.shards cluster)
          && (Js.truthy (File.url f)
              || negb (ClusterEntity.isProxyCluster cluster)))
       (FileList._files this) /\
  (forall f : File.t,
      In f (FileList.getAvailableFiles this cluster) <->
      In f (FileList._files this) /\
      (exists index : Z,
          FileList.getShardIndex (File.path f) FileList.SHARD_COUNT
          = Js.Int index /\ index <= ClusterEntity.shards cluster) /\
      (ClusterEntity.isProxyCluster cluster = true ->
       Js.truthy (File.url f) = true)) /\
  (ClusterEntity.isProxyCluster cluster = false ->
   FileList.getAvailableFiles this cluster
   ≡ₚ List.filter
        (fun f => Z.of_nat (Spec.shard_of FileList.SHARD_COUNT f)
                  <=? ClusterEntity.shards cluster)
        (FileList._files this)).
Proof.
  intros Hs. pose proof (getAvailableFiles_perm this cluster Hs) as Hp.
  split; [exact Hp|]. split.
  - intros f.
    assert (Hiff : In f (FileList.getAvailableFiles this cluster) <->
                   In f (List.filter (fun f => Spec.served f cluster)
                           (FileList._files this))).
    { split; apply Permutation_in; [exact Hp|symmetry; exact Hp]. }
    rewrite Hiff, List.filter_In. unfold Spec.served.
    rewrite andb_true_iff, orb_true_iff, negb_true_iff, Z.leb_le.
    rewrite (shard_of_index _ SHARD_COUNT_pos).
    split.
    + intros (Hin & Hle & Hurl). split; [exact Hin|]. split.
      * eexists. split; [reflexivity|exact Hle].
      * intros Hproxy. destruct Hurl as [Hurl|Hn]; [exact Hurl|congruence].
    + intros (Hin & (index & Hidx & Hle) & Hurl).
      injection Hidx as <-. split; [exact Hin|]. split; [exact Hle|].
      destruct (ClusterEntity.isProxyCluster cluster);
        [left; apply Hurl; reflexivity|right; reflexivity].
  - intros Hproxy. rewrite Hp. unfold Spec.served. rewrite Hproxy.
    erewrite List.filter_ext; [reflexivity|].
    intros f. cbn [negb]. rewrite orb_true_r, andb_true_r. reflexivity.
Qed.

Lemma getAvailableFiles_spec_witness :
  Spec.synced Examples.catalog0 /\
  FileList.getAvailableFiles Examples.catalog0 Examples.cluster0
  ≡ₚ List.filter
       (fun f =>
          (Z.of_nat (Spec.shard_of FileList.SHARD_COUNT f)
           <=? ClusterEntity.shards Examples.cluster0)
          && (Js.truthy (File.url f)
              || negb (ClusterEntity.isProxyCluster Examples.cluster0)))
       (FileList._files Examples.catalog0).
Proof.
  assert (Hs : Spec.synced Examples.catalog0) by (vm_compute; reflexivity).
  split; [exact Hs|].
  exact (proj1 (getAvailableFiles_spec Examples.catalog0 Examples.cluster0 Hs)).
Defined.

(** With [shards = 0] the record of shard 0 is listed, although no shard
    index is strictly below 0. *)
Lemma getAvailableFiles_strict_counterexample :
  ClusterEntity.shards Examples.cluster0 = 0 /\
  FileList.constructor (Some [Examples.file0; Examples.file_a])
    (Some [Examples.cluster0; Examples.cluster_full])
  = Js.Ok Examples.catalog0 /\
  FileList.getAvailableFiles Examples.catalog0 Examples.cluster0
  = [Examples.file0] /\
  List.filter (fun f => Spec.served_strict f Examples.cluster0)
    (FileList._files Examples.catalog0) = [] /\
  ~ (forall f : File.t,
        In f (FileList.getAvailableFiles Examples.catalog0 Examples.cluster0)
        <-> In f (List.filter (fun f => Spec.served_strict f Examples.cluster0)
                    (FileList._files Examples.catalog0))).
Proof.
  split; [reflexivity|].
  split; [vm_compute; reflexivity|].
  assert (H1 : FileList.getAvailableFiles Examples.catalog0 Examples.cluster0
               = [Examples.file0]) by (vm_compute; reflexivity).
  assert (H2 : List.filter (fun f => Spec.served_strict f Examples.cluster0)
                 (FileList._files Examples.catalog0) = [])
    by (vm_compute; reflexivity).
  split; [exact H1|]. split; [exact H2|].
  rewrite H1, H2. intros H. apply (proj1 (H Examples.file0)). left. reflexivity.
Qed.

(** ** C9: lookup by hash goes through the path of the first match *)

Section Lookup.

Import FileList Spec.

Lemma scan_bucket_synced (this : FileList.t) (value : string) :
  synced this ->
  scan_bucket this (getShardIndex value SHARD_COUNT) value
  = Js.Ok (List.filter (fun file => String.eqb (File.path file) value)
             (_files this)).
Proof.
  intros Hs. unfold scan_bucket.
  rewrite getShardIndex_pos by exact SHARD_COUNT_pos.
  pose proof (Z.mod_pos_bound (Z.abs (Crc32.str value)) SHARD_COUNT
                SHARD_COUNT_pos) as Hb.
  set (z := Z.abs (Crc32.str value) mod SHARD_COUNT) in *.
  rewrite <- (Z2Nat.id z) by lia. rewrite index_of_nat.
  rewrite (synced_shards _ Hs).
  change (@List.map) with (@fmap list _). rewrite list_lookup_fmap.
  rewrite lookup_seq_lt by lia. cbn [fmap option_fmap option_map Nat.add].
  f_equal. unfold bucket. rewrite filter_filter.
  apply List.filter_ext_in. intros f _.
  destruct (String.eqb_spec (File.path f) value) as [Heq|Hne].
  - rewrite andb_true_r. apply Nat.eqb_eq. unfold shard_of.
    rewrite Heq. reflexivity.
  - apply andb_false_r.
Qed.

Lemma getFiles_path_synced (this : FileList.t) (value : string) :
  synced this ->
  getFiles this "path" value
  = Js.Ok (List.filter (fun file => String.eqb (File.path file) value)
             (_files this)).
Proof. intros Hs. unfold getFiles. simpl. apply scan_bucket_synced, Hs. Qed.

Lemma getFiles_hash_synced (this : FileList.t) (value : string) :
  synced this ->
  getFiles this "hash" value
  = Js.Ok (List.filter
             (fun file =>
                String.eqb (File.path file)
                  (Js.or_default
                     (option_map File.path
                        (List.find
                           (fun file => String.eqb (File.hash file) value)
                           (_files this)))
                     ""))
             (_files this)).
Proof. intros Hs. unfold getFiles. simpl. apply scan_bucket_synced, Hs. Qed.

Lemma or_default_empty (s : string) : Js.or_default (Some s) "" = s.
Proof. destruct s; reflexivity. Qed.

Lemma find_first {A} (p : A -> bool) (pre post : list A) (r : A) :
  (forall x, In x pre -> p x = false) -> p r = true ->
  List.find p (pre ++ r :: post) = Some r.
Proof.
  intros Hpre Hr. induction pre as [|x pre IH]; simpl.
  - rewrite Hr. reflexivity.
  - rewrite (Hpre x) by (left; reflexivity).
    apply IH. intros y Hy. apply Hpre. right. exact Hy.
Qed.

Lemma find_none {A} (p : A -> bool) (l : list A) :
  (forall x, In x l -> p x = false) -> List.find p l = None.
Proof.
  intros Hl. induction l as [|x l IH]; simpl; [reflexivity|].
  rewrite (Hl x) by (left; reflexivity).
  apply IH. intros y Hy. apply Hl. right. exact Hy.
Qed.

End Lookup.

(** C9. On a [FileList] whose buckets are in step with its files and
    whose records all have a non-empty path: [getFiles("hash", h)] returns
    the empty list when no record has hash [h]; and when some record has,
    it returns every record whose path equals the path of the first record
    with hash [h] in catalog order: the match is on that record's path, not
    on the hash. *)
Theorem getFiles_hash_spec (this : FileList.t) (h : string) :
  Spec.synced this ->
  (forall x, In x (FileList._files this) -> File.path x <> ""%string) ->
  ((forall x, In x (FileList._files this) -> File.hash x <> h) ->
   FileList.getFiles this "hash" h = Js.Ok []) /\
  (forall (pre post : list File.t) (r : File.t),
      FileList._files this = pre ++ r :: post ->
      File.hash r = h ->
      (forall x, In x pre -> File.hash x <> h) ->
      FileList.getFiles this "hash" h
      = Js.Ok (List.filter
                 (fun file => String.eqb (File.path file) (File.path r))
                 (FileList._files this))).
Proof.
  intros Hs Hpath. rewrite (getFiles_hash_synced _ _ Hs).
  split.
  - intros Hno.
    assert (Hnone : List.find (fun file => String.eqb (File.hash file) h)
                      (FileList._files this) = None).
    { apply find_none. intros x Hx. apply String.eqb_neq, Hno, Hx. }
    rewrite Hnone. cbn [option_map Js.or_default].
    f_equal. apply filter_nowhere. intros x Hx.
    apply String.eqb_neq, Hpath, Hx.
  - intros pre post r Hfiles Hr Hpre.
    assert (Hfind : List.find (fun file => String.eqb (File.hash file) h)
                      (FileList._files this) = Some r).
    { rewrite Hfiles. apply find_first.
      - intros x Hx. apply String.eqb_neq, Hpre, Hx.
      - apply String.eqb_eq, Hr. }
    rewrite Hfind. cbn [option_map]. rewrite or_default_empty. reflexivity.
Qed.

Lemma getFiles_hash_spec_witness :
  Spec.synced Examples.catalog0 /\
  (forall x, In x (FileList._files Examples.catalog0) ->
             File.path x <> ""%string) /\
  FileList.getFiles Examples.catalog0 "hash" "missing" = Js.Ok [] /\
  FileList.getFiles Examples.catalog0 "hash" "h1"
  = Js.Ok (List.filter
             (fun file =>
                String.eqb (File.path file) (File.path Examples.file_a))
             (FileList._files Examples.catalog0)).
Proof.
  assert (Hs : Spec.synced Examples.catalog0) by (vm_compute; reflexivity).
  assert (Hpath : forall x, In x (FileList._files Examples.catalog0) ->
                            File.path x <> ""%string)
    by (intros x [<-|[<-|[]]]; discriminate).
  split; [exact Hs|]. split; [exact Hpath|]. split.
  - apply (proj1 (getFiles_hash_spec Examples.catalog0 "missing" Hs Hpath)).
    intros x [<-|[<-|[]]]; discriminate.
  - apply (proj2 (getFiles_hash_spec Examples.catalog0 "h1" Hs Hpath)
             [Examples.file0] [] Examples.file_a).
    + reflexivity.
    + reflexivity.
    + intros x [<-|[]]. discriminate.
Defined.

(** ** C8: choosing one cluster *)

Section Choice.

Import Random.

Lemma Math_random_range (g : rng) : 0 <= fst (Math_random g) < 2 ^ 53.
Proof. unfold Math_random. simpl fst. apply Z.mod_pos_bound. reflexivity. Qed.

(** Rounding a product [p < 2^53 * n] to a double moves it by less than
    [n]: the bits rounded away weigh at most half a unit in the last
    place, and that unit is below [2 n] because the 53 bits kept already
    account for a factor [2^52]. *)
Lemma round_to_double_bounds (p n : Z) :
  0 <= p -> p < 2 ^ 53 * n ->
  0 <= round_to_double p < p + n.
Proof.
  intros Hp Hpn. assert (Hn : 0 < n) by nia.
  unfold round_to_double.
  destruct (Z.leb_spec (Z.log2 p - 52) 0) as [Hk|Hk]; [lia|].
  assert (Hpos : 0 < p).
  { destruct (Z.eq_dec p 0) as [->|]; [simpl in Hk; lia|lia]. }
  set (k := Z.log2 p - 52) in *.
  destruct (Z.log2_spec p Hpos) as [Hlow _].
  replace (Z.log2 p) with (k - 1 + 53) in Hlow by lia.
  rewrite Z.pow_add_r in Hlow by lia.
  assert (Hhalf : 0 < 2 ^ (k - 1)) by (apply Z.pow_pos_nonneg; lia).
  assert (Hpow : 2 ^ k = 2 * 2 ^ (k - 1)).
  { replace k with (k - 1 + 1) at 1 by lia.
    rewrite Z.pow_add_r by lia. change (2 ^ 1) with 2. lia. }
  assert (Hsmall : 2 ^ (k - 1) < n) by nia.
  pose proof (Z.div_mod p (2 ^ k) ltac:(lia)) as Hdm.
  pose proof (Z.mod_pos_bound p (2 ^ k) ltac:(lia)) as Hm.
  assert (Hq : 0 <= p / 2 ^ k) by (apply Z.div_pos; lia).
  set (q := p / 2 ^ k) in *. set (rest := p mod 2 ^ k) in *.
  set (half := 2 ^ (k - 1)) in *.
  destruct ((half <? rest) || ((rest =? half) && Z.odd q)) eqn:Hup.
  - assert (Hge : half <= rest).
    { apply orb_prop in Hup as [Hlt|Heq].
      - apply Z.ltb_lt in Hlt. lia.
      - apply andb_prop in Heq as [Heq _]. apply Z.eqb_eq in Heq. lia. }
    nia.
  - nia.
Qed.

(** [Math.floor(Math.random() * n)] is a valid index when [n > 0], and 0
    when [n = 0]. *)
Lemma Math_floor_mul_range (r n : Z) :
  0 <= r < 2 ^ 53 -> 0 < n -> 0 <= Math_floor_mul r n < n.
Proof.
  intros Hr Hn. unfold Math_floor_mul.
  pose proof (round_to_double_bounds (r * n) n ltac:(nia) ltac:(nia)) as Hb.
  split.
  - apply Z.div_pos; [lia|reflexivity].
  - apply Z.div_lt_upper_bound; [reflexivity|nia].
Qed.

Lemma Math_floor_mul_zero (r : Z) : Math_floor_mul r 0 = 0.
Proof. unfold Math_floor_mul. rewrite Z.mul_0_r. reflexivity. Qed.

(** A draw whose exact product with 6 lies just below 5 and rounds to the
    double 5: the index is 5, not 4. *)
Example Math_floor_mul_tie : Math_floor_mul 7505999378950826 6 = 5.
Proof. vm_compute. reflexivity. Qed.

Example getRandomElement_tie :
  fst (Utilities.getRandomElement [10; 20; 30; 40; 50; 60] Examples.rng_tie)
  = Some 60.
Proof. vm_compute. reflexivity. Qed.

Lemma getRandomElement_spec {T} (array : list T) (g : rng) :
  (array = [] -> Utilities.getRandomElement array g = (None, g)) /\
  (array <> [] ->
   exists x, fst (Utilities.getRandomElement array g) = Some x /\ In x array).
Proof.
  unfold Utilities.getRandomElement. split.
  - intros ->. reflexivity.
  - intros Hne.
    destruct (Z.eqb_spec (Z.of_nat (length array)) 0) as [H0|_].
    { destruct array; [contradiction|discriminate]. }
    pose proof (Math_random_range g) as Hr.
    destruct (Math_random g) as [r g']. simpl fst in *.
    assert (Hn : 0 < Z.of_nat (length array))
      by (destruct array; [contradiction|simpl; lia]).
    pose proof (Math_floor_mul_range r _ Hr Hn) as Hi.
    unfold Js.index.
    destruct (Z.ltb_spec (Math_floor_mul r (Z.of_nat (length array))) 0);
      [lia|].
    destruct (lookup_lt_is_Some_2 array
                (Z.to_nat (Math_floor_mul r (Z.of_nat (length array)))))
      as [x Hx]; [lia|].
    exists x. split; [exact Hx|].
    apply list_elem_of_In, list_elem_of_lookup. eexists. exact Hx.
Qed.

End Choice.

(** C8. [getRandomElement] returns [undefined] exactly when the array is
    empty and otherwise one of its elements; hence
    [randomAvailableCluster] returns [null] exactly when no cluster is
    eligible for the file, never throws, and otherwise returns one of the
    eligible clusters. *)
Theorem randomAvailableCluster_spec (this : FileList.t) (file : File.t)
    (clusters : option (list ClusterEntity.t)) (ip : option string)
    (g : Random.rng) :
  (forall (T : Type) (array : list T),
      (fst (Utilities.getRandomElement array g) = None <-> array = []) /\
      (forall x, fst (Utilities.getRandomElement array g) = Some x ->
                 In x array)) /\
  (fst (FileList.randomAvailableCluster this file clusters ip g) = None <->
   FileList.getAvailableClusters this (Some file) clusters = []) /\
  (forall c,
      fst (FileList.randomAvailableCluster this file clusters ip g) = Some c ->
      In c (FileList.getAvailableClusters this (Some file) clusters)).
Proof.
  assert (Hgen : forall (T : Type) (array : list T),
             (fst (Utilities.getRandomElement array g) = None <-> array = [])
             /\ (forall x, fst (Utilities.getRandomElement array g) = Some x
                           -> In x array)).
  { intros T array.
    destruct (getRandomElement_spec array g) as [Hnil Hcons].
    destruct array as [|a array].
    - rewrite (Hnil eq_refl). simpl. split; [tauto|discriminate].
    - destruct Hcons as (x & Hx & Hin); [discriminate|].
      rewrite Hx. split.
      + split; discriminate.
      + intros y Hy. injection Hy as <-. exact Hin. }
  split; [exact Hgen|].
  unfold FileList.randomAvailableCluster. apply Hgen.
Qed.

(** ** C10 and C7: several random picks *)

Section Picks.

Import Random Heap.
Context {T : Type}.

Lemma read_lookup (h : gmap positive (list T)) (a : loc) (xs : list T) :
  h !! a = Some xs -> read h a = xs.
Proof. intros H. unfold read. rewrite H. reflexivity. Qed.

(** Indexing into the empty array yields [undefined] at every iteration. *)
Lemma pick_with_duplicates_empty (n : nat) (acc : list (option T))
    (g : rng) :
  exists g',
    Utilities.pick_with_duplicates n [] acc g
    = (acc ++ replicate n None, g').
Proof.
  revert acc g. induction n as [|n IH]; intros acc g.
  - exists g. simpl. rewrite app_nil_r. reflexivity.
  - cbn [Utilities.pick_with_duplicates].
    destruct (Math_random g) as [r g1]. cbn [length Z.of_nat].
    rewrite Math_floor_mul_zero.
    destruct (IH (acc ++ [Js.index [] (Js.Int 0)]) g1) as [g' Hg'].
    exists g'. rewrite Hg'. cbn [Js.index Z.ltb Z.compare Z.to_nat].
    rewrite <- app_assoc. reflexivity.
Qed.

(** With duplicates allowed the loop always yields [n] entries. *)
Lemma pick_with_duplicates_length (n : nat) (array : list T)
    (acc : list (option T)) (g : rng) :
  length (fst (Utilities.pick_with_duplicates n array acc g))
  = (length acc + n)%nat.
Proof.
  revert acc g. induction n as [|n IH]; intros acc g.
  - simpl. lia.
  - cbn [Utilities.pick_with_duplicates].
    destruct (Math_random g) as [r g1]. rewrite IH, length_app. simpl. lia.
Qed.

(** The loop that forbids duplicates moves [n] elements, one per
    iteration, from [tempArray] to the result and touches no other array. *)
Lemma pick_without_duplicates_spec (n : nat) :
  forall (h : gmap positive (list T)) (tempArray : loc)
         (acc : list (option T)) (g : rng) (tmp : list T),
    h !! tempArray = Some tmp ->
    (n <= length tmp)%nat ->
    exists (picked tmp' : list T) (g' : rng),
      Utilities.pick_without_duplicates n h tempArray acc g
      = (acc ++ (Some <$> picked), <[tempArray := tmp']> h, g') /\
      length picked = n /\
      picked ++ tmp' ≡ₚ tmp.
Proof.
  induction n as [|n IH]; intros h tempArray acc g tmp Htmp Hlen.
  - exists [], tmp, g. cbn [Utilities.pick_without_duplicates].
    rewrite insert_id by exact Htmp. simpl. rewrite app_nil_r.
    split; [reflexivity|]. split; reflexivity.
  - cbn [Utilities.pick_without_duplicates].
    pose proof (Math_random_range g) as Hr.
    destruct (Math_random g) as [r g1]. simpl fst in Hr.
    rewrite (read_lookup _ _ _ Htmp).
    pose proof (Math_floor_mul_range r (Z.of_nat (length tmp)) Hr
                  ltac:(lia)) as Hi.
    set (i := Math_floor_mul r (Z.of_nat (length tmp))) in *.
    unfold splice1. rewrite (read_lookup _ _ _ Htmp).
    destruct (lookup_lt_is_Some_2 tmp (Z.to_nat i)) as [x Hx]; [lia|].
    rewrite (drop_S _ _ _ Hx). cbn [take head].
    destruct (IH (<[tempArray := take (Z.to_nat i) tmp
                                 ++ drop (S (Z.to_nat i)) tmp]> h)
                tempArray (acc ++ [Some x]) g1
                (take (Z.to_nat i) tmp ++ drop (S (Z.to_nat i)) tmp))
      as (picked & tmp' & g' & Hrun & Hlp & Hperm).
    { apply lookup_insert_eq. }
    { rewrite length_app, length_take, length_drop. lia. }
    exists (x :: picked), tmp', g'. rewrite Hrun.
    rewrite insert_insert_eq, <- app_assoc.
    split; [reflexivity|]. split; [simpl; lia|].
    simpl. rewrite Hperm.
    rewrite <- (take_drop_middle tmp (Z.to_nat i) x Hx) at 3.
    apply Permutation_middle.
Qed.

End Picks.

(** C10. With duplicates allowed and an empty source, no error is raised
    for any positive count [c]: the call returns [c] entries, each of them
    the [undefined] obtained by indexing into the empty array, and leaves
    the heap as it was. *)
Theorem getRandomElements_empty_source (T : Type)
    (h : gmap positive (list T)) (array : Heap.loc) (c : Z)
    (g : Random.rng) :
  0 < c ->
  h !! array = Some [] ->
  exists g' : Random.rng,
    Utilities.getRandomElements h array c true g
    = (Js.Ok (replicate (Z.to_nat c) None), h, g') /\
    Z.of_nat (length (replicate (Z.to_nat c) (@None T))) = c.
Proof.
  intros Hc Harr. unfold Utilities.getRandomElements.
  rewrite (read_lookup _ _ _ Harr).
  destruct (pick_with_duplicates_empty (T := T) (Z.to_nat c) [] g)
    as [g' Hg'].
  rewrite Hg'. exists g'. split; [reflexivity|].
  rewrite length_replicate. lia.
Qed.

Lemma getRandomElements_empty_source_witness :
  0 < 3 /\
  Examples.heap_empty_source !! 1%positive = Some [] /\
  exists g' : Random.rng,
    Utilities.getRandomElements Examples.heap_empty_source 1%positive 3 true
      Examples.rng0
    = (Js.Ok (replicate (Z.to_nat 3) None), Examples.heap_empty_source, g') /\
    Z.of_nat (length (replicate (Z.to_nat 3) (@None Z))) = 3.
Proof.
  split; [lia|]. split; [reflexivity|].
  apply (getRandomElements_empty_source Z Examples.heap_empty_source
           1%positive 3 Examples.rng0); [lia|reflexivity].
Defined.

(** C7. With duplicates disallowed: a count above the length of the source
    throws before anything is picked (no result, no random draw, the heap
    exactly as before); a count within bounds returns exactly that many
    elements, taken from distinct positions of the source, and every array
    that existed before the call, the source among them, is unchanged (the
    picks are spliced out of a fresh copy). *)
Theorem getRandomElements_unique_spec (T : Type)
    (h : gmap positive (list T)) (array : Heap.loc) (xs : list T)
    (count : Z) (g : Random.rng) :
  h !! array = Some xs ->
  (Z.of_nat (length xs) < count ->
   exists msg : string,
     Utilities.getRandomElements h array count false g
     = (Js.Throw (Js.Error msg), h, g)) /\
  (0 <= count <= Z.of_nat (length xs) ->
   exists (picked rest : list T) (h' : gmap positive (list T))
          (g' : Random.rng),
     Utilities.getRandomElements h array count false g
     = (Js.Ok (Some <$> picked), h', g') /\
     Z.of_nat (length picked) = count /\
     picked ++ rest ≡ₚ xs /\
     h' !! array = Some xs /\
     (forall a : Heap.loc, is_Some (h !! a) -> h' !! a = h !! a)).
Proof.
  intros Harr. unfold Utilities.getRandomElements.
  rewrite (read_lookup _ _ _ Harr). split.
  - intros Hgt.
    destruct (Z.gtb_spec count (Z.of_nat (length xs))) as [_|Hle]; [|lia].
    eexists. reflexivity.
  - intros Hin.
    destruct (Z.gtb_spec count (Z.of_nat (length xs))) as [Hgt|_]; [lia|].
    unfold Heap.spread. rewrite (read_lookup _ _ _ Harr).
    set (l := fresh (dom h)).
    assert (Hfresh : h !! l = None).
    { apply not_elem_of_dom. apply is_fresh. }
    destruct (pick_without_duplicates_spec (Z.to_nat count)
                (<[l := xs]> h) l [] g xs)
      as (picked & tmp' & g' & Hrun & Hlen & Hperm).
    { apply lookup_insert_eq. }
    { lia. }
    rewrite Hrun. rewrite insert_insert_eq.
    exists picked, tmp', (<[l := tmp']> h), g'.
    split; [reflexivity|]. split; [lia|]. split; [exact Hperm|].
    assert (Hold : forall a : Heap.loc,
               is_Some (h !! a) -> <[l := tmp']> h !! a = h !! a).
    { intros a [v Hv]. apply lookup_insert_ne. intros ->. congruence. }
    split; [|exact Hold].
    rewrite Hold by (rewrite Harr; eexists; reflexivity). exact Harr.
Qed.

Lemma getRandomElements_unique_spec_witness :
  Examples.heap3 !! 1%positive = Some [10; 20; 30] /\
  (exists msg : string,
      Utilities.getRandomElements Examples.heap3 1%positive 5 false
        Examples.rng0
      = (Js.Throw (Js.Error msg), Examples.heap3, Examples.rng0)) /\
  (exists (picked rest : list Z) (h' : gmap positive (list Z))
          (g' : Random.rng),
      Utilities.getRandomElements Examples.heap3 1%positive 2 false
        Examples.rng0
      = (Js.Ok (Some <$> picked), h', g') /\
      Z.of_nat (length picked) = 2 /\
      picked ++ rest ≡ₚ [10; 20; 30] /\
      h' !! 1%positive = Some [10; 20; 30] /\
      (forall a : Heap.loc,
          is_Some (Examples.heap3 !! a) -> h' !! a = Examples.heap3 !! a)).
Proof.
  assert (H : Examples.heap3 !! 1%positive = Some [10; 20; 30])
    by reflexivity.
  split; [exact H|]. split.
  - apply (proj1 (getRandomElements_unique_spec Z Examples.heap3 1%positive
                    [10; 20; 30] 5 Examples.rng0 H)).
    simpl. lia.
  - apply (proj2 (getRandomElements_unique_spec Z Examples.heap3 1%positive
                    [10; 20; 30] 2 Examples.rng0 H)).
    simpl. lia.
Defined.

(** A run of the example: two picks out of three, source untouched. *)
Example getRandomElements_run :
  let '(r, h', _) :=
    Utilities.getRandomElements Examples.heap3 1%positive 2 false
      Examples.rng0 in
  r = Js.Ok [Some 10; Some 30] /\ h' !! 1%positive = Some [10; 20; 30].
Proof. vm_compute. split; reflexivity. Qed.

(** A run where the rounding of the product decides the pick: the first
    index is 5, then 4 in what is left. *)
Example getRandomElements_tie_run :
  let '(r, h', _) :=
    Utilities.getRandomElements Examples.heap6 1%positive 2 false
      Examples.rng_tie in
  r = Js.Ok [Some 60; Some 50] /\
  h' !! 1%positive = Some [10; 20; 30; 40; 50; 60].
Proof. vm_compute. split; reflexivity. Qed.

(** ** C6: hashing a file, with a sentinel on failure *)

(** C6. [getFileInfoSync] is total: when [statSync], [createHash] and
    [readFileSync] all succeed it returns the hex digest of the content,
    the number of bytes read and the modification time; when any of them
    throws, the exception is caught and the result is exactly the sentinel
    (forty ['0'] characters, size 0, time 0); nothing else can happen. *)
Theorem getFileInfoSync_spec (node : Node.env) (filePath : string) :
  (forall stats digest data,
      Node.statSync node filePath = Js.Ok stats ->
      Node.createHash node "sha256" = Js.Ok digest ->
      Node.readFileSync node filePath = Js.Ok data ->
      Utilities.getFileInfoSync node filePath
      = {| FileInfo.hash := Encoding.hex (digest data);
           FileInfo.size := Z.of_nat (length data);
           FileInfo.lastModified := Node.mtime_getTime stats |}) /\
  ((exists e, Node.statSync node filePath = Js.Throw e) \/
   (exists e, Node.createHash node "sha256" = Js.Throw e) \/
   (exists e, Node.readFileSync node filePath = Js.Throw e) ->
   Utilities.getFileInfoSync node filePath = Utilities.sentinel) /\
  ((exists stats digest data,
       Node.statSync node filePath = Js.Ok stats /\
       Node.createHash node "sha256" = Js.Ok digest /\
       Node.readFileSync node filePath = Js.Ok data) \/
   Utilities.getFileInfoSync node filePath = Utilities.sentinel) /\
  FileInfo.hash Utilities.sentinel
  = string_of_list_ascii (replicate 40 "0"%char) /\
  FileInfo.size Utilities.sentinel = 0 /\
  FileInfo.lastModified Utilities.sentinel = 0.
Proof.
  unfold Utilities.getFileInfoSync.
  split; [|split; [|split]].
  - intros stats digest data -> -> ->. reflexivity.
  - intros [[e He]|[[e He]|[e He]]].
    + rewrite He. reflexivity.
    + rewrite He. destruct (Node.statSync node filePath); reflexivity.
    + rewrite He. destruct (Node.statSync node filePath); [|reflexivity].
      destruct (Node.createHash node "sha256"); reflexivity.
  - destruct (Node.statSync node filePath) as [stats|e]; [|right; reflexivity].
    destruct (Node.createHash node "sha256") as [digest|e];
      [|right; reflexivity].
    destruct (Node.readFileSync node filePath) as [data|e];
      [|right; reflexivity].
    left. exists stats, digest, data. repeat split.
  - repeat split.
Qed.

(** ** URL-safe base64 *)

Section Base64Facts.

Import Encoding.

Lemma lor_below (n a b : Z) :
  0 <= n -> 0 <= a < 2 ^ n -> 0 <= b < 2 ^ n -> 0 <= Z.lor a b < 2 ^ n.
Proof.
  intros Hn Ha Hb.
  assert (Hx : 0 <= Z.lor a b) by (apply Z.lor_nonneg; lia).
  split; [exact Hx|].
  destruct (Z.eq_dec (Z.lor a b) 0) as [->|Hne]; [lia|].
  assert (Hpos : 0 < n).
  { destruct (Z.eq_dec n 0) as [->|]; [|lia].
    change (2 ^ 0) with 1 in *.
    assert (a = 0) as -> by lia. assert (b = 0) as -> by lia.
    contradiction Hne. reflexivity. }
  apply Z.log2_lt_pow2; [lia|].
  rewrite Z.log2_lor by lia.
  apply Z.max_lub_lt.
  - destruct (Z.eq_dec a 0) as [->|]; [simpl; lia|].
    apply Z.log2_lt_pow2; lia.
  - destruct (Z.eq_dec b 0) as [->|]; [simpl; lia|].
    apply Z.log2_lt_pow2; lia.
Qed.

Lemma byteZ_range (b : Byte.byte) : 0 <= byteZ b < 256.
Proof.
  unfold byteZ. pose proof (Byte.to_N_bounded b) as H. lia.
Qed.

Lemma sextet1_range (a : Z) : 0 <= a < 256 -> 0 <= sextet1 a < 64.
Proof.
  intros Ha. unfold sextet1. rewrite Z.shiftr_div_pow2 by lia.
  change (2 ^ 2) with 4. split.
  - apply Z.div_pos; lia.
  - apply Z.div_lt_upper_bound; lia.
Qed.

Lemma sextet2_range (a b : Z) :
  0 <= a < 256 -> 0 <= b < 256 -> 0 <= sextet2 a b < 64.
Proof.
  intros Ha Hb. unfold sextet2. apply (lor_below 6); [lia| |].
  - change 3 with (Z.ones 2). rewrite Z.land_ones, Z.shiftl_mul_pow2 by lia.
    change (2 ^ 2) with 4. change (2 ^ 4) with 16. change (2 ^ 6) with 64.
    pose proof (Z.mod_pos_bound a 4 ltac:(lia)). lia.
  - rewrite Z.shiftr_div_pow2 by lia.
    change (2 ^ 4) with 16. change (2 ^ 6) with 64. split.
    + apply Z.div_pos; lia.
    + apply Z.div_lt_upper_bound; lia.
Qed.

Lemma sextet3_range (b c : Z) :
  0 <= b < 256 -> 0 <= c < 256 -> 0 <= sextet3 b c < 64.
Proof.
  intros Hb Hc. unfold sextet3. apply (lor_below 6); [lia| |].
  - change 15 with (Z.ones 4). rewrite Z.land_ones, Z.shiftl_mul_pow2 by lia.
    change (2 ^ 2) with 4. change (2 ^ 4) with 16. change (2 ^ 6) with 64.
    pose proof (Z.mod_pos_bound b 16 ltac:(lia)). lia.
  - rewrite Z.shiftr_div_pow2 by lia.
    change (2 ^ 6) with 64. split.
    + apply Z.div_pos; lia.
    + apply Z.div_lt_upper_bound; lia.
Qed.

Lemma sextet4_range (c : Z) : 0 <= sextet4 c < 64.
Proof.
  unfold sextet4. change 63 with (Z.ones 6). rewrite Z.land_ones by lia.
  apply Z.mod_pos_bound. reflexivity.
Qed.

(** On the 64 characters of the alphabet, replacing [+] by [-] and then
    [/] by [_] gives the URL-safe alphabet, which does not contain [=]. *)
Lemma url_char (i : Z) (c : ascii) :
  0 <= i < 64 ->
  c = char_at base64_alphabet i ->
  (if Ascii.eqb (if Ascii.eqb c "+" then "-"%char else c) "/"
   then "_"%char
   else (if Ascii.eqb c "+" then "-"%char else c))
  = char_at base64url_alphabet i /\
  Ascii.eqb (char_at base64url_alphabet i) "=" = false.
Proof.
  intros Hi ->.
  assert (Hall :
    forallb
      (fun i =>
         let c := char_at base64_alphabet i in
         Ascii.eqb
           (if Ascii.eqb (if Ascii.eqb c "+" then "-"%char else c) "/"
            then "_"%char
            else (if Ascii.eqb c "+" then "-"%char else c))
           (char_at base64url_alphabet i)
         && negb (Ascii.eqb (char_at base64url_alphabet i) "="))
      (seqZ 0 64) = true) by (vm_compute; reflexivity).
  rewrite forallb_forall in Hall.
  assert (Hin : In i (seqZ 0 64))
    by (apply list_elem_of_In, elem_of_seqZ; lia).
  apply Hall in Hin. cbv zeta in Hin. apply andb_prop in Hin as [H1 H2].
  apply Ascii.eqb_eq in H1. apply negb_true_iff in H2.
  split; assumption.
Qed.

Lemma strip_cons_other (c : ascii) (r : string) :
  Ascii.eqb c "=" = false ->
  strip_trailing_eq (String c r) = String c (strip_trailing_eq r).
Proof.
  intros Hc. cbn [strip_trailing_eq]. rewrite Hc.
  destruct (strip_trailing_eq r); reflexivity.
Qed.

Lemma list_ind3 {A} (P : list A -> Prop) :
  P [] -> (forall a, P [a]) -> (forall a b, P [a; b]) ->
  (forall a b c l, P l -> P (a :: b :: c :: l)) ->
  forall l, P l.
Proof.
  intros H0 H1 H2 H3. fix IH 1.
  intros [|a [|b [|c l]]].
  - exact H0.
  - apply H1.
  - apply H2.
  - apply H3, IH.
Qed.

(** The chain of replacements computes unpadded URL-safe base64. *)
Lemma toUrlSafeBase64String_base64url (buffer : list Byte.byte) :
  Utilities.toUrlSafeBase64String buffer = base64url_nopad buffer.
Proof.
  unfold Utilities.toUrlSafeBase64String.
  assert (H0 : 0 <= 0 < 256) by lia.
  induction buffer as [|a|a b|a b c rest IH] using list_ind3.
  - reflexivity.
  - pose proof (byteZ_range a) as Ha.
    cbn [Buffer_toString_base64 base64url_nopad replace_all].
    destruct (url_char _ _ (sextet1_range _ Ha) eq_refl) as [-> E1].
    destruct (url_char _ _ (sextet2_range _ _ Ha H0) eq_refl) as [-> E2].
    rewrite (strip_cons_other _ _ E1), (strip_cons_other _ _ E2).
    reflexivity.
  - pose proof (byteZ_range a) as Ha. pose proof (byteZ_range b) as Hb.
    cbn [Buffer_toString_base64 base64url_nopad replace_all].
    destruct (url_char _ _ (sextet1_range _ Ha) eq_refl) as [-> E1].
    destruct (url_char _ _ (sextet2_range _ _ Ha Hb) eq_refl) as [-> E2].
    destruct (url_char _ _ (sextet3_range _ _ Hb H0) eq_refl) as [-> E3].
    rewrite (strip_cons_other _ _ E1), (strip_cons_other _ _ E2),
      (strip_cons_other _ _ E3).
    reflexivity.
  - pose proof (byteZ_range a) as Ha. pose proof (byteZ_range b) as Hb.
    pose proof (byteZ_range c) as Hc.
    cbn [Buffer_toString_base64 base64url_nopad replace_all].
    destruct (url_char _ _ (sextet1_range _ Ha) eq_refl) as [-> E1].
    destruct (url_char _ _ (sextet2_range _ _ Ha Hb) eq_refl) as [-> E2].
    destruct (url_char _ _ (sextet3_range _ _ Hb Hc) eq_refl) as [-> E3].
    destruct (url_char _ _ (sextet4_range (byteZ c)) eq_refl) as [-> E4].
    rewrite (strip_cons_other _ _ E1), (strip_cons_other _ _ E2),
      (strip_cons_other _ _ E3), (strip_cons_other _ _ E4).
    rewrite IH. reflexivity.
Qed.

End Base64Facts.

(** ** Base-36 numerals *)

Section Base36Facts.

Import Encoding.

Lemma value36_digit36 (d : Z) :
  0 <= d < 36 ->
  value36 (digit36 d) = Some d /\ Ascii.eqb (digit36 d) "-" = false.
Proof.
  intros Hd.
  assert (Hall :
    forallb
      (fun d =>
         match value36 (digit36 d) with
         | Some d' => d' =? d
         | None => false
         end && negb (Ascii.eqb (digit36 d) "-"))
      (seqZ 0 36) = true) by (vm_compute; reflexivity).
  rewrite forallb_forall in Hall.
  assert (Hin : In d (seqZ 0 36))
    by (apply list_elem_of_In, elem_of_seqZ; lia).
  apply Hall in Hin. apply andb_prop in Hin as [H1 H2].
  apply negb_true_iff in H2. split; [|exact H2].
  destruct (value36 (digit36 d)) as [d'|]; [|discriminate].
  apply Z.eqb_eq in H1. congruence.
Qed.

(** With enough fuel the digits of [n] are produced most significant
    first, in front of [acc]. *)
Lemma digits36_parse (fuel : nat) :
  forall (n : Z) (acc : string),
    0 < n < 36 ^ Z.of_nat fuel ->
    (exists (d : Z) (rest : string),
        0 <= d < 36 /\ digits36 fuel n acc = String (digit36 d) rest) /\
    (exists k : Z,
        0 <= k /\
        forall a : Z,
          parse36_from a (digits36 fuel n acc)
          = parse36_from (a * 36 ^ k + n) acc).
Proof.
  induction fuel as [|fuel IH]; intros n acc Hn.
  - change (36 ^ Z.of_nat 0) with 1 in Hn. lia.
  - cbn [digits36].
    pose proof (Z.mod_pos_bound n 36 ltac:(lia)) as Hm.
    pose proof (Z.div_mod n 36 ltac:(lia)) as Hdm.
    destruct (value36_digit36 _ Hm) as [Hv _].
    destruct (Z.eqb_spec (n / 36) 0) as [Hz|Hnz].
    + split.
      * exists (n mod 36), acc. split; [exact Hm|reflexivity].
      * exists 1. split; [lia|]. intros a.
        cbn [parse36_from]. rewrite Hv. f_equal. lia.
    + assert (Hq : 0 < n / 36 < 36 ^ Z.of_nat fuel).
      { split.
        - pose proof (Z.div_pos n 36 ltac:(lia) ltac:(lia)). lia.
        - apply Z.div_lt_upper_bound; [lia|].
          rewrite Nat2Z.inj_succ, Z.pow_succ_r in Hn by lia. lia. }
      destruct (IH (n / 36) (String (digit36 (n mod 36)) acc) Hq)
        as [Hhead (k & Hk & Hparse)].
      split; [exact Hhead|].
      exists (k + 1). split; [lia|]. intros a.
      rewrite Hparse. cbn [parse36_from]. rewrite Hv. f_equal.
      rewrite Z.pow_add_r by lia. lia.
Qed.

Lemma fuel_enough (n : Z) :
  0 < n -> 0 < n < 36 ^ Z.of_nat (S (Z.to_nat (Z.log2 n))).
Proof.
  intros Hn. split; [exact Hn|].
  pose proof (Z.log2_nonneg n) as Hl.
  rewrite Nat2Z.inj_succ, Z2Nat.id by lia.
  destruct (Z.log2_spec n Hn) as [_ Hup].
  eapply Z.lt_le_trans; [exact Hup|].
  apply Z.pow_le_mono_l. lia.
Qed.

(** [toString(36)] denotes the number it was given. *)
Lemma Number_toString36_parse (n : Z) :
  parse36 (Number_toString36 n) = Some n.
Proof.
  unfold Number_toString36.
  destruct (Z.eqb_spec n 0) as [->|Hne]; [reflexivity|].
  destruct (Z.ltb_spec n 0) as [Hneg|Hpos].
  - destruct (digits36_parse _ (- n) "" (fuel_enough (- n) ltac:(lia)))
      as [_ (k & Hk & Hparse)].
    cbn [parse36]. rewrite Ascii.eqb_refl, Hparse.
    cbn [parse36_from option_map]. f_equal. lia.
  - destruct (digits36_parse _ n "" (fuel_enough n ltac:(lia)))
      as [(d & rest & Hd & Hhead) (k & Hk & Hparse)].
    destruct (value36_digit36 _ Hd) as [_ Hminus].
    unfold parse36. rewrite Hhead, Hminus, <- Hhead, Hparse.
    cbn [parse36_from]. f_equal.
Qed.

End Base36Facts.

(** ** C5: the signature of a path *)

(** C5. On a runtime that provides SHA-1 ([createHash('sha1')] returns
    the hash function [sha1]), for every path and secret [getSign] returns
    ["s=<sig>&e=<exp>"], where [exp] is the base-36 numeral of the current
    time plus 5 minutes (300000 ms) and [sig] is the unpadded URL-safe
    base64 of the SHA-1 digest of [secret ++ path ++ exp], obtained from
    standard base64 by replacing [+] with [-], [/] with [_] and removing
    the trailing [=]. *)
Theorem getSign_spec (node : Node.env) (path secret : string)
    (sha1 : list Byte.byte -> list Byte.byte) :
  Node.createHash node "sha1" = Js.Ok sha1 ->
  exists exp sig : string,
    Utilities.getSign node path secret
    = Some ("s=" ++ sig ++ "&e=" ++ exp)%string /\
    exp = Encoding.Number_toString36 (Node.Date_now node + 300000) /\
    Encoding.parse36 exp = Some (Node.Date_now node + 300000) /\
    sig = Encoding.base64url_nopad
            (sha1 (Encoding.string_bytes (secret ++ path ++ exp)%string)) /\
    sig = Encoding.strip_trailing_eq
            (Encoding.replace_all "/" "_"
               (Encoding.replace_all "+" "-"
                  (Encoding.Buffer_toString_base64
                     (sha1 (Encoding.string_bytes
                              (secret ++ path ++ exp)%string))))).
Proof.
  unfold Utilities.getSign. intros ->.
  change (5 * 60 * 1000) with 300000.
  eexists. eexists. split; [reflexivity|].
  split; [reflexivity|].
  split; [apply Number_toString36_parse|].
  split; [apply toUrlSafeBase64String_base64url|reflexivity].
Qed.

(** The handler of the [try]: were the hash object not to be had, the
    result would be [null]. *)
Lemma getSign_catch (node : Node.env) (path secret : string) (e : Js.error) :
  Node.createHash node "sha1" = Js.Throw e ->
  Utilities.getSign node path secret = None.
Proof. unfold Utilities.getSign. intros ->. reflexivity. Qed.

(** The digest of the examples is SHA-1: the vector ["abc"] of the
    standard. *)
Example sha1_abc :
  Encoding.hex (Sha1.digest (Encoding.string_bytes "abc"))
  = "a9993e364706816aba3e25717850c26c9cd0d89d"%string.
Proof. vm_compute. reflexivity. Qed.

(** A signature computed on the real digest; its standard base64 form
    ["TcC2v/iL+H1CigJaGlAikdzjzbc="] contains [+], [/] and padding. *)
Example getSign_run :
  Utilities.getSign Examples.node_std "/files/a.txt" "secret"
  = Some "s=TcC2v_iL-H1CigJaGlAikdzjzbc&e=m2r1ieow"%string.
Proof. vm_compute. reflexivity. Qed.

Example sha256_abc :
  Encoding.hex (Sha256.digest (Encoding.string_bytes "abc"))
  = "ba7816bf8f01cfea414140de5dae2223b00361a396177a9cb410ff61f20015ad"%string.
Proof. vm_compute. reflexivity. Qed.

Example getFileInfoSync_run :
  Utilities.getFileInfoSync Examples.node_std "/data/abc.txt"
  = {| FileInfo.hash :=
         "ba7816bf8f01cfea414140de5dae2223b00361a396177a9cb410ff61f20015ad";
       FileInfo.size := 3; FileInfo.lastModified := 1729999000000 |}.
Proof. vm_compute. reflexivity. Qed.

Example getFileInfoSync_missing :
  Utilities.getFileInfoSync Examples.node_std "/no/such/file"
  = {| FileInfo.hash := "0000000000000000000000000000000000000000";
       FileInfo.size := 0; FileInfo.lastModified := 0 |}.
Proof. reflexivity. Qed.

(** ** The theorems at concrete inputs *)

Lemma getAvailableClusters_spec_witness :
  FileList.getAvailableClusters Examples.catalog0 (Some Examples.file_a)
    (Some [Examples.cluster0; Examples.cluster_full])
  = List.filter
      (fun c =>
         ClusterEntity.isOnline c && negb (ClusterEntity.isBanned c)
         && ((Z.of_nat (Spec.shard_of FileList.SHARD_COUNT Examples.file_a)
              <=? ClusterEntity.shards c)
             && (Js.truthy (File.url Examples.file_a)
                 || negb (ClusterEntity.isProxyCluster c))))
      [Examples.cluster0; Examples.cluster_full].
Proof.
  exact (proj1 (getAvailableClusters_spec Examples.catalog0 Examples.file_a
                  [Examples.cluster0; Examples.cluster_full])).
Defined.

Lemma splitIntoShards_partition_witness :
  exists shards : list (list File.t),
    FileList.splitIntoShards [Examples.file0; Examples.file_a]
      FileList.SHARD_COUNT = Js.Ok shards /\
    Z.of_nat (length shards) = FileList.SHARD_COUNT /\
    concat shards ≡ₚ [Examples.file0; Examples.file_a].
Proof.
  destruct (splitIntoShards_partition [Examples.file0; Examples.file_a])
    as (shards & Hrun & Hlen & _ & _ & _ & Hperm & _).
  exists shards. split; [exact Hrun|]. split; [exact Hlen|exact Hperm].
Defined.

Lemma getSign_spec_witness :
  Node.createHash Examples.node_std "sha1" = Js.Ok Sha1.digest /\
  exists exp sig : string,
    Utilities.getSign Examples.node_std "/files/a.txt" "secret"
    = Some ("s=" ++ sig ++ "&e=" ++ exp)%string /\
    Encoding.parse36 exp = Some (1730000000000 + 300000).
Proof.
  split; [reflexivity|].
  destruct (getSign_spec Examples.node_std "/files/a.txt" "secret"
              Sha1.digest eq_refl)
    as (exp & sig & Hrun & _ & Hexp & _).
  exists exp, sig. split; [exact Hrun|exact Hexp].
Defined.

Lemma getFileInfoSync_spec_witness :
  Node.statSync Examples.node_std "/data/abc.txt"
  = Js.Ok {| Node.mtime_getTime := 1729999000000 |} /\
  Utilities.getFileInfoSync Examples.node_std "/data/abc.txt"
  = {| FileInfo.hash :=
         Encoding.hex (Sha256.digest (Encoding.string_bytes "abc"));
       FileInfo.size := Z.of_nat (length (Encoding.string_bytes "abc"));
       FileInfo.lastModified := 1729999000000 |} /\
  Utilities.getFileInfoSync Examples.node_bare "/data/abc.txt"
  = Utilities.sentinel.
Proof.
  split; [reflexivity|]. split.
  - exact (proj1 (getFileInfoSync_spec Examples.node_std "/data/abc.txt")
             {| Node.mtime_getTime := 1729999000000 |} Sha256.digest
             (Encoding.string_bytes "abc") eq_refl eq_refl eq_refl).
  - apply (proj1 (proj2 (getFileInfoSync_spec Examples.node_bare
                           "/data/abc.txt"))).
    left. eexists. reflexivity.
Defined.

Lemma randomAvailableCluster_spec_witness :
  FileList.getAvailableClusters Examples.catalog0 (Some Examples.file_a)
    (Some [Examples.cluster0]) = [] /\
  fst (FileList.randomAvailableCluster Examples.catalog0 Examples.file_a
         (Some [Examples.cluster0]) None Examples.rng0) = None /\
  In Examples.cluster_full
    (FileList.getAvailableClusters Examples.catalog0 (Some Examples.file_a)
       None).
Proof.
  assert (H : FileList.getAvailableClusters Examples.catalog0
                (Some Examples.file_a) (Some [Examples.cluster0]) = [])
    by (vm_compute; reflexivity).
  split; [exact H|]. split.
  - apply (proj1 (proj2 (randomAvailableCluster_spec Examples.catalog0
                           Examples.file_a (Some [Examples.cluster0]) None
                           Examples.rng0))).
    exact H.
  - apply (proj2 (proj2 (randomAvailableCluster_spec Examples.catalog0
                           Examples.file_a None None Examples.rng0))).
    vm_compute. reflexivity.
Defined.

(** * Further properties of the code *)

(** ** Lookups in the catalog *)

Section MoreLookup.

Import FileList Spec.

Lemma find_filter_implied {A} (p q : A -> bool) (l : list A) :
  (forall x, p x = true -> q x = true) ->
  List.find p (List.filter q l) = List.find p l.
Proof.
  intros Hpq. induction l as [|x l IH]; [reflexivity|]. simpl.
  destruct (q x) eqn:Hq; simpl.
  - rewrite IH. reflexivity.
  - destruct (p x) eqn:Hp; [|exact IH].
    rewrite (Hpq x Hp) in Hq. discriminate.
Qed.

Lemma getFile_path_synced (this : FileList.t) (value : string) :
  synced this ->
  getFile this "path" value
  = Js.Ok (List.find (fun file => String.eqb (File.path file) value)
             (_files this)).
Proof.
  intros Hs. unfold getFile. cbn [String.eqb Ascii.eqb Bool.eqb].
  rewrite getShardIndex_pos by exact SHARD_COUNT_pos.
  pose proof (Z.mod_pos_bound (Z.abs (Crc32.str value)) SHARD_COUNT
                SHARD_COUNT_pos) as Hb.
  set (z := Z.abs (Crc32.str value) mod SHARD_COUNT) in *.
  rewrite <- (Z2Nat.id z) by lia. rewrite index_of_nat.
  rewrite (synced_shards _ Hs).
  change (@List.map) with (@fmap list _). rewrite list_lookup_fmap.
  rewrite lookup_seq_lt by lia. cbn [fmap option_fmap option_map Nat.add].
  f_equal. unfold bucket. apply find_filter_implied.
  intros f Hf. apply String.eqb_eq in Hf. apply Nat.eqb_eq.
  unfold shard_of. rewrite Hf. reflexivity.
Qed.

Lemma length_positive_iff {A} (l : list A) :
  (Z.of_nat (length l) >? 0) = true <-> exists x, In x l.
Proof.
  destruct l as [|x l]; simpl.
  - split; [discriminate|]. intros [x []].
  - split; [|intros _; apply Z.gtb_lt; lia].
    intros _. exists x. left. reflexivity.
Qed.

Lemma reachable_synced (this : FileList.t) : reachable this -> synced this.
Proof.
  induction 1 as [files clusters this Hnew|this files this' _ _ Hset
                  |this clusters _ IH].
  - destruct (constructor_synced files clusters) as (this0 & H0 & Hs).
    congruence.
  - destruct (set_files_synced this files) as (this0 & H0 & Hs).
    congruence.
  - apply set_clusters_synced, IH.
Qed.

End MoreLookup.

(** X1. On a [FileList] whose buckets are in step with its files, looking
    a path up through its shard never throws and finds exactly what a scan
    of the whole catalog finds: all records with that path, in catalog
    order. *)
Theorem getFiles_path_is_scan (this : FileList.t) (p : string) :
  Spec.synced this ->
  FileList.getFiles this "path" p
  = Js.Ok (List.filter (fun file => String.eqb (File.path file) p)
             (FileList._files this)).
Proof. intros Hs. apply getFiles_path_synced, Hs. Qed.

Lemma getFiles_path_is_scan_witness :
  Spec.synced Examples.catalog0 /\
  FileList.getFiles Examples.catalog0 "path" "/files/a.txt"
  = Js.Ok (List.filter
             (fun file => String.eqb (File.path file) "/files/a.txt")
             (FileList._files Examples.catalog0)).
Proof.
  assert (Hs : Spec.synced Examples.catalog0) by (vm_compute; reflexivity).
  split; [exact Hs|].
  exact (getFiles_path_is_scan Examples.catalog0 "/files/a.txt" Hs).
Defined.

(** X2. [getFile] by path returns the first record of the catalog with
    that path ([undefined] when there is none), although it only scans one
    bucket; by hash it returns the first record with that hash. *)
Theorem getFile_is_first_match (this : FileList.t) (v : string) :
  Spec.synced this ->
  FileList.getFile this "path" v
  = Js.Ok (List.find (fun file => String.eqb (File.path file) v)
             (FileList._files this)) /\
  FileList.getFile this "hash" v
  = Js.Ok (List.find (fun file => String.eqb (File.hash file) v)
             (FileList._files this)) /\
  (forall (pre post : list File.t) (r : File.t),
      FileList._files this = pre ++ r :: post ->
      File.path r = v ->
      (forall x, In x pre -> File.path x <> v) ->
      FileList.getFile this "path" v = Js.Ok (Some r)) /\
  ((forall x, In x (FileList._files this) -> File.path x <> v) ->
   FileList.getFile this "path" v = Js.Ok None).
Proof.
  intros Hs. rewrite (getFile_path_synced _ _ Hs).
  split; [reflexivity|]. split; [reflexivity|]. split.
  - intros pre post r Hfiles Hr Hpre. rewrite Hfiles. f_equal.
    apply find_first.
    + intros x Hx. apply String.eqb_neq, Hpre, Hx.
    + apply String.eqb_eq, Hr.
  - intros Hno. f_equal. apply find_none.
    intros x Hx. apply String.eqb_neq, Hno, Hx.
Qed.

Lemma getFile_is_first_match_witness :
  Spec.synced Examples.catalog0 /\
  FileList.getFile Examples.catalog0 "path" "/files/a.txt"
  = Js.Ok (Some Examples.file_a).
Proof.
  assert (Hs : Spec.synced Examples.catalog0) by (vm_compute; reflexivity).
  split; [exact Hs|].
  apply (proj1 (proj2 (proj2
           (getFile_is_first_match Examples.catalog0 "/files/a.txt" Hs)))
           [Examples.file0] [] Examples.file_a).
  - reflexivity.
  - reflexivity.
  - intros x [<-|[]]. discriminate.
Defined.

(** X3. [exists("path", p)] never throws on such a [FileList] and answers
    [true] exactly when some record of the catalog has path [p]. *)
Theorem exists_path_iff (this : FileList.t) (p : string) :
  Spec.synced this ->
  exists b : bool,
    FileList.exists_ this "path" p = Js.Ok b /\
    (b = true <->
     exists f, In f (FileList._files this) /\ File.path f = p).
Proof.
  intros Hs. unfold FileList.exists_.
  rewrite (getFiles_path_synced _ _ Hs). cbn [Js.bind].
  eexists. split; [reflexivity|].
  rewrite length_positive_iff. split.
  - intros (f & Hf). apply List.filter_In in Hf as [Hin Hp].
    exists f. split; [exact Hin|apply String.eqb_eq, Hp].
  - intros (f & Hin & Hp). exists f. apply List.filter_In.
    split; [exact Hin|apply String.eqb_eq, Hp].
Qed.

Lemma exists_path_iff_witness :
  Spec.synced Examples.catalog0 /\
  exists b : bool,
    FileList.exists_ Examples.catalog0 "path" "/files/none" = Js.Ok b /\
    (b = true <->
     exists f, In f (FileList._files Examples.catalog0) /\
               File.path f = "/files/none"%string).
Proof.
  assert (Hs : Spec.synced Examples.catalog0) by (vm_compute; reflexivity).
  split; [exact Hs|].
  exact (exists_path_iff Examples.catalog0 "/files/none" Hs).
Defined.

(** X4. [exists("hash", h)] never throws on such a [FileList]; it answers
    [true] whenever some record has hash [h], and when it answers [true]
    either some record has hash [h] or some record has the empty path (the
    fallback of the lookup). *)
Theorem exists_hash_sound (this : FileList.t) (h : string) :
  Spec.synced this ->
  exists b : bool,
    FileList.exists_ this "hash" h = Js.Ok b /\
    ((exists f, In f (FileList._files this) /\ File.hash f = h) ->
     b = true) /\
    (b = true ->
     (exists f, In f (FileList._files this) /\ File.hash f = h) \/
     (exists f, In f (FileList._files this) /\ File.path f = ""%string)).
Proof.
  intros Hs. unfold FileList.exists_.
  rewrite (getFiles_hash_synced _ _ Hs). cbn [Js.bind].
  eexists. split; [reflexivity|].
  rewrite length_positive_iff.
  destruct (List.find (fun file => String.eqb (File.hash file) h)
              (FileList._files this)) as [r|] eqn:Hfind.
  - apply List.find_some in Hfind as [Hin Hh]. apply String.eqb_eq in Hh.
    cbn [option_map]. rewrite or_default_empty. split.
    + intros _. exists r. apply List.filter_In.
      split; [exact Hin|apply String.eqb_refl].
    + intros _. left. exists r. split; assumption.
  - cbn [option_map Js.or_default]. split.
    + intros (f & Hin & Hh).
      pose proof (List.find_none _ _ Hfind f Hin) as Hn.
      apply String.eqb_neq in Hn. contradiction.
    + intros (f & Hf). apply List.filter_In in Hf as [Hin Hp].
      right. exists f. split; [exact Hin|apply String.eqb_eq, Hp].
Qed.

Lemma exists_hash_sound_witness :
  Spec.synced Examples.catalog_nopath /\
  FileList.exists_ Examples.catalog_nopath "hash" "missing" = Js.Ok true /\
  exists b : bool,
    FileList.exists_ Examples.catalog_nopath "hash" "h1" = Js.Ok b /\
    ((exists f, In f (FileList._files Examples.catalog_nopath) /\
                File.hash f = "h1"%string) -> b = true) /\
    (b = true ->
     (exists f, In f (FileList._files Examples.catalog_nopath) /\
                File.hash f = "h1"%string) \/
     (exists f, In f (FileList._files Examples.catalog_nopath) /\
                File.path f = ""%string)).
Proof.
  assert (Hs : Spec.synced Examples.catalog_nopath)
    by (vm_compute; reflexivity).
  split; [exact Hs|]. split; [vm_compute; reflexivity|].
  exact (exists_hash_sound Examples.catalog_nopath "h1" Hs).
Defined.

(** X5. Whatever [getFile] finds, [getFiles] with the same arguments
    returns too, and [exists] then answers [true]. *)
Theorem getFile_in_getFiles (this : FileList.t) (type v : string)
    (r : File.t) :
  Spec.synced this ->
  FileList.getFile this type v = Js.Ok (Some r) ->
  exists l : list File.t,
    FileList.getFiles this type v = Js.Ok l /\
    In r l /\
    FileList.exists_ this type v = Js.Ok true.
Proof.
  intros Hs Hget.
  assert (Hex : forall l, FileList.getFiles this type v = Js.Ok l ->
                          In r l ->
                          FileList.exists_ this type v = Js.Ok true).
  { intros l Hl Hin. unfold FileList.exists_. rewrite Hl. cbn [Js.bind].
    f_equal. apply length_positive_iff. exists r. exact Hin. }
  assert (Hboth : exists l, FileList.getFiles this type v = Js.Ok l /\ In r l).
  { destruct (String.eqb_spec type "path") as [->|Hnp].
    - rewrite (getFile_path_synced _ _ Hs) in Hget. injection Hget as Hget.
      apply List.find_some in Hget as [Hin Hp].
      rewrite (getFiles_path_synced _ _ Hs). eexists.
      split; [reflexivity|]. apply List.filter_In. split; assumption.
    - destruct (String.eqb_spec type "hash") as [->|Hnh].
      + unfold FileList.getFile in Hget.
        cbn [String.eqb Ascii.eqb Bool.eqb] in Hget.
        injection Hget as Hget.
        rewrite (getFiles_hash_synced _ _ Hs), Hget.
        cbn [option_map]. rewrite or_default_empty.
        apply List.find_some in Hget as [Hin _].
        eexists. split; [reflexivity|]. apply List.filter_In.
        split; [exact Hin|apply String.eqb_refl].
      + unfold FileList.getFile in Hget.
        apply String.eqb_neq in Hnp, Hnh. rewrite Hnp, Hnh in Hget.
        discriminate. }
  destruct Hboth as (l & Hl & Hin).
  exists l. split; [exact Hl|]. split; [exact Hin|exact (Hex l Hl Hin)].
Qed.

Lemma getFile_in_getFiles_witness :
  Spec.synced Examples.catalog0 /\
  FileList.getFile Examples.catalog0 "hash" "h1" = Js.Ok (Some Examples.file_a) /\
  exists l : list File.t,
    FileList.getFiles Examples.catalog0 "hash" "h1" = Js.Ok l /\
    In Examples.file_a l /\
    FileList.exists_ Examples.catalog0 "hash" "h1" = Js.Ok true.
Proof.
  assert (Hs : Spec.synced Examples.catalog0) by (vm_compute; reflexivity).
  assert (Hg : FileList.getFile Examples.catalog0 "hash" "h1"
               = Js.Ok (Some Examples.file_a)) by (vm_compute; reflexivity).
  split; [exact Hs|]. split; [exact Hg|].
  exact (getFile_in_getFiles Examples.catalog0 "hash" "h1" Examples.file_a
           Hs Hg).
Defined.

(** ** The states a [FileList] goes through *)

(** X6. The constructor and the [files] setter never throw, and in every
    state they and the [clusters] setter produce, the buckets are the
    partition of the current files: 1000 buckets that together hold
    exactly the records of [_files]. *)
Theorem reachable_invariant (this : FileList.t) :
  Spec.reachable this ->
  Spec.synced this /\
  length (FileList._shards this) = 1000%nat /\
  concat (FileList._shards this) ≡ₚ FileList._files this /\
  (forall files, exists this',
        FileList.set_files this files = Js.Ok this' /\
        Spec.reachable this' /\
        FileList._files this' = files /\
        FileList._clusters this' = FileList._clusters this).
Proof.
  intros Hr. pose proof (reachable_synced this Hr) as Hs.
  split; [exact Hs|].
  rewrite (synced_shards _ Hs).
  split; [rewrite length_map, length_seq; reflexivity|].
  split; [apply concat_all_buckets, SHARD_COUNT_pos|].
  intros files.
  destruct (set_files_synced this files) as (this' & Hset & _).
  exists this'. split; [exact Hset|].
  split; [exact (Spec.reach_set_files this files this' Hr Hset)|].
  unfold FileList.set_files, FileList.notifyUpdateShards in Hset.
  cbn [FileList._files FileList._clusters] in Hset.
  destruct (FileList.splitIntoShards files FileList.SHARD_COUNT);
    [|discriminate].
  cbn [Js.bind] in Hset. injection Hset as <-. split; reflexivity.
Qed.

Lemma reachable_invariant_witness :
  Spec.reachable Examples.catalog0 /\
  Spec.synced Examples.catalog0 /\
  length (FileList._shards Examples.catalog0) = 1000%nat.
Proof.
  assert (Hr : Spec.reachable Examples.catalog0).
  { apply (Spec.reach_constructor
             (Some [Examples.file0; Examples.file_a])
             (Some [Examples.cluster0; Examples.cluster_full])).
    vm_compute. reflexivity. }
  split; [exact Hr|].
  destruct (reachable_invariant Examples.catalog0 Hr) as (Hs & Hl & _).
  split; [exact Hs|exact Hl].
Defined.

(** ** Eligibility, listing and routing together *)

Section MoreEligibility.

Import FileList Spec.

Lemma filter_indexed_none {A} (p : A -> Z -> bool) (l : list A) (i : Z) :
  (forall x j, i <= j -> p x j = false) -> filter_indexed p i l = [].
Proof.
  revert i. induction l as [|x l IH]; intros i Hp; [reflexivity|].
  cbn [filter_indexed]. rewrite (Hp x i) by lia.
  apply IH. intros y j Hj. apply Hp. lia.
Qed.

Lemma in_getAvailableFiles (this : FileList.t) (c : ClusterEntity.t)
    (f : File.t) :
  synced this ->
  (In f (getAvailableFiles this c)
   <-> In f (_files this) /\ availableInCluster f c = true).
Proof.
  intros Hs. pose proof (getAvailableFiles_perm this c Hs) as Hp.
  rewrite availableInCluster_served.
  rewrite <- (List.filter_In (fun f => served f c) f (_files this)).
  split; apply Permutation_in; [exact Hp|symmetry; exact Hp].
Qed.

End MoreEligibility.

(** X7. Without a file, [getAvailableClusters] returns the online, unbanned
    clusters of the pool (or of the registered clusters when no pool is
    given), in order; with a file it returns those of them that pass
    [availableInCluster], so it never adds a cluster the status view does
    not show. *)
Theorem getAvailableClusters_without_file (this : FileList.t)
    (clusters : option (list ClusterEntity.t)) (file : File.t) :
  FileList.getAvailableClusters this None clusters
  = List.filter
      (fun c => ClusterEntity.isOnline c && negb (ClusterEntity.isBanned c))
      (match clusters with
       | Some cs => cs
       | None => FileList._clusters this
       end) /\
  FileList.getAvailableClusters this (Some file) clusters
  = List.filter (FileList.availableInCluster file)
      (FileList.getAvailableClusters this None clusters) /\
  (forall c,
      In c (FileList.getAvailableClusters this (Some file) clusters) ->
      In c (FileList.getAvailableClusters this None clusters)).
Proof.
  split; [reflexivity|].
  assert (H : FileList.getAvailableClusters this (Some file) clusters
              = List.filter (FileList.availableInCluster file)
                  (FileList.getAvailableClusters this None clusters)).
  { unfold FileList.getAvailableClusters.
    rewrite push_available_filter. reflexivity. }
  split; [exact H|].
  intros c Hc. rewrite H in Hc. apply List.filter_In in Hc as [Hc _].
  exact Hc.
Qed.

(** X8. The cluster [randomAvailableCluster] picks, if any, always comes
    from the pool, is online, is not banned, passes [availableInCluster]
    for the file, and is a proxy cluster only if the file has an origin
    URL. *)
Theorem randomAvailableCluster_safe (this : FileList.t) (file : File.t)
    (clusters : option (list ClusterEntity.t)) (ip : option string)
    (g : Random.rng) (c : ClusterEntity.t) :
  fst (FileList.randomAvailableCluster this file clusters ip g) = Some c ->
  In c (match clusters with
        | Some cs => cs
        | None => FileList._clusters this
        end) /\
  ClusterEntity.isOnline c = true /\
  ClusterEntity.isBanned c = false /\
  FileList.availableInCluster file c = true /\
  (ClusterEntity.isProxyCluster c = true ->
   Js.truthy (File.url file) = true).
Proof.
  unfold FileList.randomAvailableCluster. intros Hpick.
  assert (Hin : In c (FileList.getAvailableClusters this (Some file)
                        clusters)).
  { destruct (FileList.getAvailableClusters this (Some file) clusters)
      as [|a l] eqn:Hl.
    - destruct (getRandomElement_spec (@nil ClusterEntity.t) g) as [Hnil _].
      rewrite (Hnil eq_refl) in Hpick. discriminate.
    - destruct (getRandomElement_spec (a :: l) g) as [_ Hcons].
      destruct Hcons as (x & Hx & Hxin); [discriminate|].
      rewrite Hx in Hpick. injection Hpick as <-. exact Hxin. }
  rewrite getAvailableClusters_filter in Hin.
  apply List.filter_In in Hin as [Hpool Hel].
  unfold Spec.eligible, Spec.healthy in Hel.
  apply andb_prop in Hel as [Hh Hserved].
  apply andb_prop in Hh as [Hon Hban]. apply negb_true_iff in Hban.
  split; [exact Hpool|]. split; [exact Hon|]. split; [exact Hban|].
  split; [rewrite availableInCluster_served; exact Hserved|].
  intros Hproxy. unfold Spec.served in Hserved.
  apply andb_prop in Hserved as [_ Hurl]. rewrite Hproxy in Hurl.
  cbn [negb] in Hurl. rewrite orb_false_r in Hurl. exact Hurl.
Qed.

Lemma randomAvailableCluster_safe_witness :
  fst (FileList.randomAvailableCluster Examples.catalog0 Examples.file_a
         None None Examples.rng0) = Some Examples.cluster_full /\
  ClusterEntity.isOnline Examples.cluster_full = true /\
  FileList.availableInCluster Examples.file_a Examples.cluster_full = true.
Proof.
  assert (H : fst (FileList.randomAvailableCluster Examples.catalog0
                     Examples.file_a None None Examples.rng0)
              = Some Examples.cluster_full) by (vm_compute; reflexivity).
  split; [exact H|].
  destruct (randomAvailableCluster_safe Examples.catalog0 Examples.file_a
              None None Examples.rng0 Examples.cluster_full H)
    as (_ & Hon & _ & Hav & _).
  split; [exact Hon|exact Hav].
Defined.

(** X9. Listing and routing agree: a record of the catalog is in the list
    [getAvailableFiles] gives a cluster exactly when [availableInCluster]
    accepts the record for that cluster, so a healthy cluster is offered
    for a catalog file exactly when the file is in the cluster's list. *)
Theorem listing_agrees_with_routing (this : FileList.t)
    (c : ClusterEntity.t) (f : File.t) :
  Spec.synced this ->
  In f (FileList._files this) ->
  (In f (FileList.getAvailableFiles this c)
   <-> FileList.availableInCluster f c = true) /\
  (In c (FileList._clusters this) ->
   ClusterEntity.isOnline c = true ->
   ClusterEntity.isBanned c = false ->
   (In c (FileList.getAvailableClusters this (Some f) None)
    <-> In f (FileList.getAvailableFiles this c))).
Proof.
  intros Hs Hf.
  assert (H1 : In f (FileList.getAvailableFiles this c)
               <-> FileList.availableInCluster f c = true).
  { rewrite (in_getAvailableFiles this c f Hs). tauto. }
  split; [exact H1|].
  intros Hc Hon Hban. rewrite H1, getAvailableClusters_filter.
  rewrite List.filter_In. unfold Spec.eligible, Spec.healthy.
  rewrite Hon, Hban, availableInCluster_served. cbn [negb andb]. tauto.
Qed.

Lemma listing_agrees_with_routing_witness :
  Spec.synced Examples.catalog0 /\
  In Examples.file_a (FileList._files Examples.catalog0) /\
  (In Examples.file_a
     (FileList.getAvailableFiles Examples.catalog0 Examples.cluster_full)
   <-> FileList.availableInCluster Examples.file_a Examples.cluster_full
       = true).
Proof.
  assert (Hs : Spec.synced Examples.catalog0) by (vm_compute; reflexivity).
  assert (Hf : In Examples.file_a (FileList._files Examples.catalog0))
    by (right; left; reflexivity).
  split; [exact Hs|]. split; [exact Hf|].
  exact (proj1 (listing_agrees_with_routing Examples.catalog0
                  Examples.cluster_full Examples.file_a Hs Hf)).
Defined.

(** X10. Raising [shards] never loses a file: if a cluster has at least
    the [shards] of another and is a proxy cluster only if the other is,
    every record listed for the other is listed for it, and it is accepted
    for every file the other is accepted for. *)
Theorem more_shards_more_files (this : FileList.t)
    (c c' : ClusterEntity.t) :
  Spec.synced this ->
  ClusterEntity.shards c <= ClusterEntity.shards c' ->
  (ClusterEntity.isProxyCluster c' = true ->
   ClusterEntity.isProxyCluster c = true) ->
  (forall f, FileList.availableInCluster f c = true ->
             FileList.availableInCluster f c' = true) /\
  (forall f, In f (FileList.getAvailableFiles this c) ->
             In f (FileList.getAvailableFiles this c')).
Proof.
  intros Hs Hle Hproxy.
  assert (Hav : forall f, FileList.availableInCluster f c = true ->
                          FileList.availableInCluster f c' = true).
  { intros f. rewrite !availableInCluster_served. unfold Spec.served.
    rewrite !andb_true_iff, !orb_true_iff, !negb_true_iff, !Z.leb_le.
    intros [Hidx Hurl]. split; [lia|].
    destruct Hurl as [Hurl|Hnp]; [left; exact Hurl|].
    right. destruct (ClusterEntity.isProxyCluster c') eqn:Hp';
      [|reflexivity].
    rewrite (Hproxy eq_refl) in Hnp. discriminate. }
  split; [exact Hav|].
  intros f. rewrite !(in_getAvailableFiles this _ f Hs).
  intros [Hin Hf]. split; [exact Hin|apply Hav, Hf].
Qed.

Lemma more_shards_more_files_witness :
  Spec.synced Examples.catalog0 /\
  ClusterEntity.shards Examples.cluster0
  <= ClusterEntity.shards Examples.cluster_full /\
  (forall f,
      In f (FileList.getAvailableFiles Examples.catalog0 Examples.cluster0)
      -> In f (FileList.getAvailableFiles Examples.catalog0
                 Examples.cluster_full)).
Proof.
  assert (Hs : Spec.synced Examples.catalog0) by (vm_compute; reflexivity).
  assert (Hle : ClusterEntity.shards Examples.cluster0
                <= ClusterEntity.shards Examples.cluster_full)
    by (simpl; lia).
  split; [exact Hs|]. split; [exact Hle|].
  apply (more_shards_more_files Examples.catalog0 Examples.cluster0
           Examples.cluster_full Hs Hle).
  intros H. exact H.
Defined.

(** X11. The two ends of the range of [shards]: a cluster with a negative
    [shards] is listed no file at all, in any state; a non-proxy cluster
    with [shards >= SHARD_COUNT - 1] is listed the whole catalog. *)
Theorem getAvailableFiles_bounds (this : FileList.t)
    (c : ClusterEntity.t) :
  (ClusterEntity.shards c < 0 -> FileList.getAvailableFiles this c = []) /\
  (Spec.synced this ->
   FileList.SHARD_COUNT - 1 <= ClusterEntity.shards c ->
   ClusterEntity.isProxyCluster c = false ->
   FileList.getAvailableFiles this c ≡ₚ FileList._files this).
Proof.
  split.
  - intros Hneg. unfold FileList.getAvailableFiles.
    rewrite filter_indexed_none; [reflexivity|].
    intros x j Hj. rewrite Z.geb_leb. apply Z.leb_gt. lia.
  - intros Hs Hfull Hproxy.
    rewrite (getAvailableFiles_perm this c Hs).
    rewrite filter_all; [reflexivity|].
    intros f _. unfold Spec.served. rewrite Hproxy.
    cbn [negb]. rewrite orb_true_r, andb_true_r.
    pose proof (shard_of_lt _ SHARD_COUNT_pos f) as Hlt.
    apply Z.leb_le. change FileList.SHARD_COUNT with 1000 in *. lia.
Qed.

Lemma getAvailableFiles_bounds_witness :
  Spec.synced Examples.catalog0 /\
  FileList.getAvailableFiles Examples.catalog0 Examples.cluster_full
  ≡ₚ FileList._files Examples.catalog0.
Proof.
  assert (Hs : Spec.synced Examples.catalog0) by (vm_compute; reflexivity).
  split; [exact Hs|].
  apply (proj2 (getAvailableFiles_bounds Examples.catalog0
                  Examples.cluster_full) Hs).
  - simpl. unfold FileList.SHARD_COUNT. lia.
  - reflexivity.
Defined.

(** ** Sharding with any number of shards *)






(** ** More on random picks *)

Section MorePicks.

Import Random Heap.
Context {T : Type}.

Lemma pick_with_duplicates_members (n : nat) (xs : list T) :
  xs <> [] ->
  forall (acc : list (option T)) (g : rng),
  exists (picked : list T) (g' : rng),
    Utilities.pick_with_duplicates n xs acc g
    = (acc ++ (Some <$> picked), g') /\
    length picked = n /\
    (forall x, In x picked -> In x xs).
Proof.
  intros Hne. induction n as [|n IH]; intros acc g.
  - exists [], g. simpl. rewrite app_nil_r.
    split; [reflexivity|]. split; [reflexivity|]. intros x [].
  - cbn [Utilities.pick_with_duplicates].
    pose proof (Math_random_range g) as Hr.
    destruct (Math_random g) as [r g1]. simpl fst in Hr.
    assert (Hn : 0 < Z.of_nat (length xs))
      by (destruct xs; [contradiction|simpl; lia]).
    pose proof (Math_floor_mul_range r _ Hr Hn) as Hi.
    set (i := Math_floor_mul r (Z.of_nat (length xs))) in *.
    unfold Js.index. destruct (Z.ltb_spec i 0) as [|_]; [lia|].
    destruct (lookup_lt_is_Some_2 xs (Z.to_nat i)) as [x Hx]; [lia|].
    rewrite Hx.
    destruct (IH (acc ++ [Some x]) g1) as (picked & g' & Hrun & Hlen & Hin).
    exists (x :: picked), g'. rewrite Hrun, <- app_assoc.
    split; [reflexivity|]. split; [simpl; lia|].
    intros y [<-|Hy]; [|apply Hin, Hy].
    apply list_elem_of_In, list_elem_of_lookup. eexists. exact Hx.
Qed.

End MorePicks.

(** X14. With duplicates allowed and a non-empty source,
    [getRandomElements] never throws and returns [count] entries (none for
    a negative [count]), every one of them an element of the source; the
    heap is left as it was. *)
Theorem getRandomElements_with_duplicates (T : Type)
    (h : gmap positive (list T)) (array : Heap.loc) (xs : list T)
    (count : Z) (g : Random.rng) :
  h !! array = Some xs ->
  xs <> [] ->
  exists (picked : list T) (g' : Random.rng),
    Utilities.getRandomElements h array count true g
    = (Js.Ok (Some <$> picked), h, g') /\
    length picked = Z.to_nat count /\
    (forall x, In x picked -> In x xs).
Proof.
  intros Harr Hne. unfold Utilities.getRandomElements.
  rewrite (read_lookup _ _ _ Harr).
  destruct (pick_with_duplicates_members (Z.to_nat count) xs Hne [] g)
    as (picked & g' & Hrun & Hlen & Hin).
  rewrite Hrun. exists picked, g'.
  split; [reflexivity|]. split; [exact Hlen|exact Hin].
Qed.

Lemma getRandomElements_with_duplicates_witness :
  Examples.heap3 !! 1%positive = Some [10; 20; 30] /\
  exists (picked : list Z) (g' : Random.rng),
    Utilities.getRandomElements Examples.heap3 1%positive 5 true
      Examples.rng0
    = (Js.Ok (Some <$> picked), Examples.heap3, g') /\
    length picked = Z.to_nat 5 /\
    (forall x, In x picked -> In x [10; 20; 30]).
Proof.
  assert (H : Examples.heap3 !! 1%positive = Some [10; 20; 30])
    by reflexivity.
  split; [exact H|].
  apply (getRandomElements_with_duplicates Z Examples.heap3 1%positive
           [10; 20; 30] 5 Examples.rng0 H).
  discriminate.
Defined.

(** X15. With duplicates disallowed, whatever [getRandomElements] returns
    consists of elements taken from distinct positions of the source: if
    the source has no repeated element neither has the result, and asking
    for as many elements as the source holds returns a rearrangement of
    the whole source. *)
Theorem getRandomElements_unique_distinct (T : Type)
    (h h' : gmap positive (list T)) (array : Heap.loc) (xs : list T)
    (count : Z) (g g' : Random.rng) (res : list (option T)) :
  h !! array = Some xs ->
  Utilities.getRandomElements h array count false g = (Js.Ok res, h', g') ->
  exists picked : list T,
    res = Some <$> picked /\
    (forall x, In x picked -> In x xs) /\
    (NoDup xs -> NoDup picked) /\
    (count = Z.of_nat (length xs) -> picked ≡ₚ xs).
Proof.
  intros Harr. unfold Utilities.getRandomElements.
  rewrite (read_lookup _ _ _ Harr).
  destruct (Z.gtb_spec count (Z.of_nat (length xs))) as [|Hle];
    [discriminate|].
  unfold Heap.spread. rewrite (read_lookup _ _ _ Harr).
  set (l := fresh (dom h)).
  destruct (pick_without_duplicates_spec (Z.to_nat count)
              (<[l := xs]> h) l [] g xs)
    as (picked & tmp' & g1 & Hrun & Hlen & Hperm).
  { apply lookup_insert_eq. }
  { lia. }
  rewrite Hrun. intros Heq. injection Heq as <- _ _.
  exists picked. split; [reflexivity|]. split; [|split].
  - intros x Hx. apply (Permutation_in x Hperm).
    apply in_or_app. left. exact Hx.
  - intros Hnd. rewrite <- Hperm in Hnd.
    apply NoDup_app in Hnd as [Hnd _]. exact Hnd.
  - intros Hcount.
    assert (Hrest : tmp' = []).
    { apply Permutation_length in Hperm. rewrite length_app in Hperm.
      destruct tmp'; [reflexivity|simpl in Hperm; lia]. }
    rewrite Hrest, app_nil_r in Hperm. exact Hperm.
Qed.

Lemma getRandomElements_unique_distinct_witness :
  Examples.heap3 !! 1%positive = Some [10; 20; 30] /\
  exists picked : list Z,
    fst (fst (Utilities.getRandomElements Examples.heap3 1%positive 3 false
                Examples.rng0))
    = Js.Ok (Some <$> picked) /\
    picked ≡ₚ [10; 20; 30].
Proof.
  assert (H : Examples.heap3 !! 1%positive = Some [10; 20; 30])
    by reflexivity.
  split; [exact H|].
  destruct (Utilities.getRandomElements Examples.heap3 1%positive 3 false
              Examples.rng0) as [[r h'] g'] eqn:Hrun.
  destruct r as [res|e]; [|vm_compute in Hrun; discriminate].
  destruct (getRandomElements_unique_distinct Z Examples.heap3 h' 1%positive
              [10; 20; 30] 3 Examples.rng0 g' res H Hrun)
    as (picked & -> & _ & _ & Hperm).
  exists picked. split; [reflexivity|]. apply Hperm. reflexivity.
Defined.

(** ** The URL-safe encoding can be read back *)

Section Base64RoundTrip.

Import Encoding.

Lemma forall_bytes2 (P : Z -> Z -> bool) :
  forallb (fun a => forallb (P a) (seqZ 0 256)) (seqZ 0 256) = true ->
  forall a b, 0 <= a < 256 -> 0 <= b < 256 -> P a b = true.
Proof.
  intros Hall a b Ha Hb. rewrite forallb_forall in Hall.
  assert (Hina : In a (seqZ 0 256))
    by (apply list_elem_of_In, elem_of_seqZ; lia).
  assert (Hinb : In b (seqZ 0 256))
    by (apply list_elem_of_In, elem_of_seqZ; lia).
  specialize (Hall a Hina). rewrite forallb_forall in Hall.
  exact (Hall b Hinb).
Qed.

(** How the bits of the bytes are spread over the sextets. *)
Lemma sextets_bits (a b : Z) :
  0 <= a < 256 -> 0 <= b < 256 ->
  Z.lor (Z.shiftl (sextet1 a) 2) (Z.shiftr (sextet2 a b) 4) = a /\
  Z.land (sextet2 a b) 15 = Z.shiftr b 4 /\
  Z.shiftr (sextet3 a b) 2 = Z.land a 15 /\
  Z.lor (Z.shiftl (Z.land (sextet3 a b) 3) 6) (sextet4 b) = b /\
  Z.lor (Z.shiftl (Z.shiftr a 4) 4) (Z.land a 15) = a.
Proof.
  intros Ha Hb.
  pose proof (forall_bytes2
    (fun a b =>
       (Z.lor (Z.shiftl (sextet1 a) 2) (Z.shiftr (sextet2 a b) 4) =? a)
       && (Z.land (sextet2 a b) 15 =? Z.shiftr b 4)
       && (Z.shiftr (sextet3 a b) 2 =? Z.land a 15)
       && (Z.lor (Z.shiftl (Z.land (sextet3 a b) 3) 6) (sextet4 b) =? b)
       && (Z.lor (Z.shiftl (Z.shiftr a 4) 4) (Z.land a 15) =? a))
    ltac:(vm_compute; reflexivity) a b Ha Hb) as H.
  cbv beta in H. rewrite !andb_true_iff, !Z.eqb_eq in H. tauto.
Qed.

Lemma to_byte_byteZ (x : Byte.byte) : to_byte (byteZ x) = x.
Proof.
  unfold to_byte. pose proof (byteZ_range x) as Hx.
  change 255 with (Z.ones 8). rewrite Z.land_ones by lia.
  rewrite Z.mod_small by (change (2 ^ 8) with 256; lia).
  unfold byteZ. rewrite N2Z.id, Byte.of_to_N. reflexivity.
Qed.

Lemma position_char_at (i : Z) :
  0 <= i < 64 -> position (char_at base64url_alphabet i) = i.
Proof.
  intros Hi.
  assert (Hall :
    forallb (fun i => position (char_at base64url_alphabet i) =? i)
      (seqZ 0 64) = true) by (vm_compute; reflexivity).
  rewrite forallb_forall in Hall. apply Z.eqb_eq, Hall.
  apply list_elem_of_In, elem_of_seqZ. lia.
Qed.

Lemma octets_of_sextets (a b c : Byte.byte) :
  octet1 (sextet1 (byteZ a)) (sextet2 (byteZ a) (byteZ b)) = a /\
  octet2 (sextet2 (byteZ a) (byteZ b)) (sextet3 (byteZ b) (byteZ c)) = b /\
  octet3 (sextet3 (byteZ b) (byteZ c)) (sextet4 (byteZ c)) = c.
Proof.
  pose proof (byteZ_range a) as Ha. pose proof (byteZ_range b) as Hb.
  pose proof (byteZ_range c) as Hc.
  destruct (sextets_bits _ _ Ha Hb) as (F1 & F2 & _ & _ & _).
  destruct (sextets_bits _ _ Hb Hc) as (_ & _ & F3 & F4 & F5).
  unfold octet1, octet2, octet3.
  rewrite F1, F2, F3, F5, F4, !to_byte_byteZ. repeat split.
Qed.

Lemma octets_of_sextets_tail (a b : Byte.byte) :
  octet1 (sextet1 (byteZ a)) (sextet2 (byteZ a) 0) = a /\
  octet2 (sextet2 (byteZ a) (byteZ b)) (sextet3 (byteZ b) 0) = b.
Proof.
  pose proof (byteZ_range a) as Ha. pose proof (byteZ_range b) as Hb.
  assert (H0 : 0 <= 0 < 256) by lia.
  destruct (sextets_bits _ _ Ha H0) as (F1 & _ & _ & _ & _).
  destruct (sextets_bits _ _ Ha Hb) as (_ & F2 & _ & _ & _).
  destruct (sextets_bits _ _ Hb H0) as (_ & _ & F3 & _ & F5).
  unfold octet1, octet2.
  rewrite F1, F2, F3, F5, !to_byte_byteZ. split; reflexivity.
Qed.

Lemma base64url_decode_nopad (buffer : list Byte.byte) :
  base64url_decode (base64url_nopad buffer) = buffer.
Proof.
  assert (H0 : 0 <= 0 < 256) by lia.
  induction buffer as [|a|a b|a b c rest IH] using list_ind3.
  - reflexivity.
  - pose proof (byteZ_range a) as Ha.
    cbn [base64url_nopad base64url_decode].
    rewrite !position_char_at
      by (first [apply sextet1_range|apply sextet2_range]; assumption).
    rewrite (proj1 (octets_of_sextets_tail a a)). reflexivity.
  - pose proof (byteZ_range a) as Ha. pose proof (byteZ_range b) as Hb.
    cbn [base64url_nopad base64url_decode].
    rewrite !position_char_at
      by (first [apply sextet1_range|apply sextet2_range
                |apply sextet3_range]; assumption).
    destruct (octets_of_sextets_tail a b) as [_ ->].
    destruct (octets_of_sextets a b b) as [-> _]. reflexivity.
  - pose proof (byteZ_range a) as Ha. pose proof (byteZ_range b) as Hb.
    pose proof (byteZ_range c) as Hc.
    cbn [base64url_nopad base64url_decode].
    rewrite !position_char_at
      by (first [apply sextet1_range|apply sextet2_range
                |apply sextet3_range|apply sextet4_range]; assumption).
    destruct (octets_of_sextets a b c) as (-> & -> & ->).
    rewrite IH. reflexivity.
Qed.

End Base64RoundTrip.

(** X16. The text [toUrlSafeBase64String] produces determines the buffer:
    decoding it as unpadded URL-safe base64 gives the buffer back, so two
    different buffers (two different digests) never get the same text. *)
Theorem toUrlSafeBase64String_round_trip :
  (forall buffer : list Byte.byte,
      Encoding.base64url_decode (Utilities.toUrlSafeBase64String buffer)
      = buffer) /\
  (forall b1 b2 : list Byte.byte,
      Utilities.toUrlSafeBase64String b1 = Utilities.toUrlSafeBase64String b2
      -> b1 = b2).
Proof.
  assert (Hrt : forall buffer : list Byte.byte,
             Encoding.base64url_decode
               (Utilities.toUrlSafeBase64String buffer) = buffer).
  { intros buffer. rewrite toUrlSafeBase64String_base64url.
    apply base64url_decode_nopad. }
  split; [exact Hrt|].
  intros b1 b2 Heq. rewrite <- (Hrt b1), <- (Hrt b2), Heq. reflexivity.
Qed.

(** ** Shape of the encoded text and of the signature *)

Section Shape.

Import Encoding.

Lemma url_safe_char_at (i : Z) :
  0 <= i < 64 -> is_url_safe (char_at base64url_alphabet i) = true.
Proof.
  intros Hi. unfold is_url_safe. rewrite position_char_at by exact Hi.
  apply Z.ltb_lt. lia.
Qed.

Lemma base64url_nopad_shape (buffer : list Byte.byte) :
  all_chars is_url_safe (base64url_nopad buffer) = true /\
  String.length (base64url_nopad buffer)
  = ((4 * length buffer + 2) / 3)%nat.
Proof.
  assert (H0 : 0 <= 0 < 256) by lia.
  induction buffer as [|a|a b|a b c rest [IH1 IH2]] using list_ind3.
  - split; reflexivity.
  - pose proof (byteZ_range a) as Ha.
    cbn [base64url_nopad all_chars].
    rewrite !url_safe_char_at
      by (first [apply sextet1_range|apply sextet2_range]; assumption).
    split; reflexivity.
  - pose proof (byteZ_range a) as Ha. pose proof (byteZ_range b) as Hb.
    cbn [base64url_nopad all_chars].
    rewrite !url_safe_char_at
      by (first [apply sextet1_range|apply sextet2_range
                |apply sextet3_range]; assumption).
    split; reflexivity.
  - pose proof (byteZ_range a) as Ha. pose proof (byteZ_range b) as Hb.
    pose proof (byteZ_range c) as Hc.
    cbn [base64url_nopad all_chars String.length].
    rewrite !url_safe_char_at
      by (first [apply sextet1_range|apply sextet2_range
                |apply sextet3_range|apply sextet4_range]; assumption).
    split; [exact IH1|]. rewrite IH2. cbn [length].
    replace (4 * S (S (S (length rest))) + 2)%nat
      with (4 * length rest + 2 + 4 * 3)%nat by lia.
    rewrite Nat.div_add by lia. lia.
Qed.

Lemma digit36_is_digit (d : Z) : 0 <= d < 36 -> is_digit36 (digit36 d) = true.
Proof.
  intros Hd. unfold is_digit36.
  destruct (value36_digit36 d Hd) as [-> _]. reflexivity.
Qed.

Lemma digits36_all_digits (fuel : nat) :
  forall (n : Z) (acc : string),
    all_chars is_digit36 acc = true ->
    all_chars is_digit36 (digits36 fuel n acc) = true.
Proof.
  induction fuel as [|fuel IH]; intros n acc Hacc; [exact Hacc|].
  cbn [digits36].
  assert (Hacc' : all_chars is_digit36 (String (digit36 (n mod 36)) acc)
                  = true).
  { cbn [all_chars]. rewrite digit36_is_digit, Hacc; [reflexivity|].
    apply Z.mod_pos_bound. lia. }
  destruct (n / 36 =? 0); [exact Hacc'|apply IH, Hacc'].
Qed.

Lemma Number_toString36_digits (n : Z) :
  0 <= n -> all_chars is_digit36 (Number_toString36 n) = true.
Proof.
  intros Hn. unfold Number_toString36.
  destruct (Z.eqb_spec n 0) as [|_]; [reflexivity|].
  destruct (Z.ltb_spec n 0) as [|_]; [lia|].
  apply digits36_all_digits. reflexivity.
Qed.

Lemma hex_length (buffer : list Byte.byte) :
  String.length (hex buffer) = (2 * length buffer)%nat.
Proof.
  induction buffer as [|b rest IH]; [reflexivity|].
  cbn [hex String.length length]. rewrite IH. lia.
Qed.

End Shape.

(** X17. The text [toUrlSafeBase64String] produces for a buffer of [n]
    bytes has [ceil(4 n / 3)] characters, all of them letters, digits, [-]
    or [_]: it contains no [+], [/] or [=]. *)
Theorem toUrlSafeBase64String_shape (buffer : list Byte.byte) :
  Encoding.all_chars Encoding.is_url_safe
    (Utilities.toUrlSafeBase64String buffer) = true /\
  String.length (Utilities.toUrlSafeBase64String buffer)
  = ((4 * length buffer + 2) / 3)%nat /\
  Encoding.is_url_safe "+" = false /\
  Encoding.is_url_safe "/" = false /\
  Encoding.is_url_safe "=" = false /\
  Encoding.is_url_safe "&" = false.
Proof.
  rewrite toUrlSafeBase64String_base64url.
  destruct (base64url_nopad_shape buffer) as [H1 H2].
  split; [exact H1|]. split; [exact H2|]. repeat split.
Qed.

(** X18. When the hash is available and the clock is not before the epoch,
    the two fields of the string [getSign] returns cannot be confused with
    the separators: the signature consists of URL-safe base64 characters
    only, the expiry of base-36 digits only, and with a 20-byte digest the
    signature has exactly 27 characters. *)
Theorem getSign_fields (node : Node.env) (path secret : string)
    (sha1 : list Byte.byte -> list Byte.byte) :
  Node.createHash node "sha1" = Js.Ok sha1 ->
  0 <= Node.Date_now node ->
  exists exp sig : string,
    Utilities.getSign node path secret
    = Some ("s=" ++ sig ++ "&e=" ++ exp)%string /\
    Encoding.all_chars Encoding.is_url_safe sig = true /\
    Encoding.all_chars Encoding.is_digit36 exp = true /\
    exp <> ""%string /\
    ((forall data, length (sha1 data) = 20%nat) ->
     String.length sig = 27%nat).
Proof.
  intros Hsha Hnow. unfold Utilities.getSign. rewrite Hsha.
  change (5 * 60 * 1000) with 300000.
  eexists. eexists. split; [reflexivity|].
  rewrite toUrlSafeBase64String_base64url.
  match goal with
  | |- context [Encoding.base64url_nopad ?b] =>
      destruct (base64url_nopad_shape b) as [H1 H2]
  end.
  split; [exact H1|].
  split; [apply Number_toString36_digits; lia|].
  split.
  - intros Hempty.
    pose proof (Number_toString36_parse (Node.Date_now node + 300000)) as Hp.
    rewrite Hempty in Hp. discriminate.
  - intros Hlen. rewrite H2, Hlen. reflexivity.
Qed.

Lemma sha1_digest_length (data : list Byte.byte) :
  length (Sha1.digest data) = 20%nat.
Proof.
  unfold Sha1.digest.
  destruct (Sha1.blocks _ _ _) as [[[[h0 h1] h2] h3] h4].
  rewrite length_map, !length_app. reflexivity.
Qed.

Lemma getSign_fields_witness :
  Node.createHash Examples.node_std "sha1" = Js.Ok Sha1.digest /\
  0 <= Node.Date_now Examples.node_std /\
  exists exp sig : string,
    Utilities.getSign Examples.node_std "/files/a.txt" "secret"
    = Some ("s=" ++ sig ++ "&e=" ++ exp)%string /\
    Encoding.all_chars Encoding.is_url_safe sig = true /\
    Encoding.all_chars Encoding.is_digit36 exp = true /\
    String.length sig = 27%nat.
Proof.
  split; [reflexivity|]. split; [simpl; lia|].
  destruct (getSign_fields Examples.node_std "/files/a.txt" "secret"
              Sha1.digest eq_refl ltac:(simpl; lia))
    as (exp & sig & Hrun & Hsig & Hexp & _ & Hlen).
  exists exp, sig. split; [exact Hrun|]. split; [exact Hsig|].
  split; [exact Hexp|]. apply Hlen, sha1_digest_length.
Defined.

(** ** Challenge signatures, batch checks and the sentinel *)

Section Signatures.

Import Encoding.

Lemma hex_digit_case (d : Z) :
  0 <= d < 16 ->
  lower_char (hex_digit d) = hex_digit d /\
  lower_char (upper_char (hex_digit d)) = hex_digit d.
Proof.
  intros Hd.
  assert (Hall :
    forallb
      (fun d =>
         Ascii.eqb (lower_char (hex_digit d)) (hex_digit d)
         && Ascii.eqb (lower_char (upper_char (hex_digit d))) (hex_digit d))
      (seqZ 0 16) = true) by (vm_compute; reflexivity).
  rewrite forallb_forall in Hall.
  assert (Hin : In d (seqZ 0 16))
    by (apply list_elem_of_In, elem_of_seqZ; lia).
  apply Hall in Hin. apply andb_prop in Hin as [H1 H2].
  apply Ascii.eqb_eq in H1, H2. split; assumption.
Qed.

Lemma nibbles_range (b : Byte.byte) :
  0 <= Z.shiftr (byteZ b) 4 < 16 /\ 0 <= Z.land (byteZ b) 15 < 16.
Proof.
  pose proof (byteZ_range b) as Hb. split.
  - rewrite Z.shiftr_div_pow2 by lia. change (2 ^ 4) with 16. split.
    + apply Z.div_pos; lia.
    + apply Z.div_lt_upper_bound; lia.
  - change 15 with (Z.ones 4). rewrite Z.land_ones by lia.
    apply Z.mod_pos_bound. reflexivity.
Qed.

(** A hexadecimal digest is already in lower case, and lower-casing its
    upper-case form gives it back. *)
Lemma hex_lower (buffer : list Byte.byte) :
  toLowerCase (hex buffer) = hex buffer /\
  toLowerCase (toUpperCase (hex buffer)) = hex buffer.
Proof.
  induction buffer as [|b rest [IH1 IH2]]; [split; reflexivity|].
  destruct (nibbles_range b) as [Hhi Hlo].
  destruct (hex_digit_case _ Hhi) as [L1 U1].
  destruct (hex_digit_case _ Hlo) as [L2 U2].
  cbn [hex toLowerCase toUpperCase].
  rewrite L1, L2, U1, U2, IH1, IH2. split; reflexivity.
Qed.

Lemma lower_char_idempotent (c : ascii) :
  lower_char (lower_char c) = lower_char c.
Proof.
  assert (Hall :
    forallb
      (fun n => Ascii.eqb (lower_char (lower_char (ascii_of_N n)))
                  (lower_char (ascii_of_N n)))
      (List.map Z.to_N (seqZ 0 256)) = true) by (vm_compute; reflexivity).
  rewrite forallb_forall in Hall.
  rewrite <- (ascii_N_embedding c). apply Ascii.eqb_eq, Hall.
  pose proof (N_ascii_bounded c) as Hb.
  apply in_map_iff. exists (Z.of_N (N_of_ascii c)).
  split; [apply N2Z.id|].
  apply list_elem_of_In, elem_of_seqZ. lia.
Qed.

Lemma toLowerCase_idempotent (s : string) :
  toLowerCase (toLowerCase s) = toLowerCase s.
Proof.
  induction s as [|c r IH]; [reflexivity|].
  cbn [toLowerCase]. rewrite lower_char_idempotent, IH. reflexivity.
Qed.

End Signatures.

(** X19. When the MAC is available, [computeSignature] accepts a signature
    exactly when its lower-case form is the hexadecimal MAC of the
    challenge under the key; so it accepts the MAC written in lower case
    and in upper case alike, and its verdict does not change when the
    signature is lower-cased first. *)
Theorem computeSignature_case_insensitive
    (createHmac : string -> string
                  -> Js.result (list Byte.byte -> list Byte.byte))
    (hmac : list Byte.byte -> list Byte.byte)
    (challenge signature key : string) :
  createHmac "sha256"%string key = Js.Ok hmac ->
  (Utilities.computeSignature createHmac challenge signature key = Js.Ok true
   <-> Encoding.toLowerCase signature
       = Encoding.hex (hmac (Encoding.string_bytes challenge))) /\
  Utilities.computeSignature createHmac challenge
    (Encoding.hex (hmac (Encoding.string_bytes challenge))) key
  = Js.Ok true /\
  Utilities.computeSignature createHmac challenge
    (Encoding.toUpperCase
       (Encoding.hex (hmac (Encoding.string_bytes challenge)))) key
  = Js.Ok true /\
  Utilities.computeSignature createHmac challenge
    (Encoding.toLowerCase signature) key
  = Utilities.computeSignature createHmac challenge signature key.
Proof.
  intros Hmac. unfold Utilities.computeSignature. rewrite Hmac.
  cbn [Js.bind].
  destruct (hex_lower (hmac (Encoding.string_bytes challenge))) as [Hl Hu].
  rewrite Hl, Hu, toLowerCase_idempotent, String.eqb_refl.
  split; [|repeat split].
  split.
  - intros H. injection H as H. apply String.eqb_eq in H. symmetry. exact H.
  - intros ->. rewrite String.eqb_refl. reflexivity.
Qed.

Lemma computeSignature_case_insensitive_witness :
  Examples.createHmac_std "sha256" "Jefe"
  = Js.Ok (Hmac.sha256 (Encoding.string_bytes "Jefe")) /\
  Utilities.computeSignature Examples.createHmac_std
    "what do ya want for nothing?"
    (Encoding.toUpperCase
       (Encoding.hex
          (Hmac.sha256 (Encoding.string_bytes "Jefe")
             (Encoding.string_bytes "what do ya want for nothing?"))))
    "Jefe"
  = Js.Ok true.
Proof.
  split; [reflexivity|].
  exact (proj1 (proj2 (proj2
    (computeSignature_case_insensitive Examples.createHmac_std
       (Hmac.sha256 (Encoding.string_bytes "Jefe"))
       "what do ya want for nothing?" "" "Jefe" eq_refl)))).
Defined.

(** The MAC of the examples is HMAC-SHA-256 (RFC 4231, test case 2). *)
Example hmac_sha256_vector :
  Encoding.hex
    (Hmac.sha256 (Encoding.string_bytes "Jefe")
       (Encoding.string_bytes "what do ya want for nothing?"))
  = "5bdcc146bf60754e6a042426089575c75a003f089d2739839dec58b964ec3843"%string.
Proof. vm_compute. reflexivity. Qed.

(** X20. [checkUrls] reports on every URL, in order and exactly once: a
    failing request or an unavailable hash gives the entry ["error"] for
    that URL and leaves the entries of the other URLs as they would be
    alone. *)
Theorem checkUrls_one_entry_per_url (node : Node.env)
    (axios_get : string -> Js.result (list Byte.byte))
    (urls : list string) :
  Utilities.checkUrls node axios_get urls
  = List.map
      (fun u =>
         {| Utilities.url := u;
            Utilities.hash :=
              match axios_get u, Node.createHash node "sha256" with
              | Js.Ok responseData, Js.Ok sha256 =>
                  Encoding.hex (sha256 responseData)
              | _, _ => "error"%string
              end |})
      urls /\
  List.map Utilities.url (Utilities.checkUrls node axios_get urls) = urls /\
  (forall u1 u2 : list string,
      Utilities.checkUrls node axios_get (u1 ++ u2)
      = Utilities.checkUrls node axios_get u1
          ++ Utilities.checkUrls node axios_get u2).
Proof.
  assert (Hgen : forall (us : list string) (acc : list Utilities.UrlHash),
             fold_left (Utilities.checkUrl node axios_get) us acc
             = acc ++ List.map
                 (fun u =>
                    {| Utilities.url := u;
                       Utilities.hash :=
                         match axios_get u, Node.createHash node "sha256" with
                         | Js.Ok responseData, Js.Ok sha256 =>
                             Encoding.hex (sha256 responseData)
                         | _, _ => "error"%string
                         end |})
                 us).
  { induction us as [|u us IH]; intros acc; simpl.
    - rewrite app_nil_r. reflexivity.
    - rewrite IH. unfold Utilities.checkUrl at 1.
      destruct (axios_get u) as [data|e]; cbn [Js.bind Js.try_catch].
      + destruct (Node.createHash node "sha256") as [h|e];
          cbn [Js.bind Js.try_catch]; rewrite <- app_assoc; reflexivity.
      + rewrite <- app_assoc. reflexivity. }
  assert (H : Utilities.checkUrls node axios_get urls = List.map _ urls)
    by (unfold Utilities.checkUrls; rewrite Hgen; reflexivity).
  split; [exact H|]. split.
  - rewrite H, List.map_map. cbn [Utilities.url]. apply List.map_id.
  - intros u1 u2. unfold Utilities.checkUrls.
    rewrite fold_left_app, (Hgen u2), !Hgen. reflexivity.
Qed.

(** X21. With a hash that yields 32 bytes, as SHA-256 does, a successful
    [getFileInfoSync] has a 64-character hash, so it returns the sentinel
    exactly when reading the file failed: the sentinel is never the record
    of a readable file, not even an empty one. *)
Theorem sentinel_iff_failure (node : Node.env) (filePath : string)
    (sha256 : list Byte.byte -> list Byte.byte) :
  Node.createHash node "sha256" = Js.Ok sha256 ->
  (forall data, length (sha256 data) = 32%nat) ->
  (Utilities.getFileInfoSync node filePath = Utilities.sentinel
   <-> (exists e, Node.statSync node filePath = Js.Throw e) \/
       (exists e, Node.readFileSync node filePath = Js.Throw e)) /\
  (Utilities.getFileInfoSync node filePath <> Utilities.sentinel ->
   String.length (FileInfo.hash (Utilities.getFileInfoSync node filePath))
   = 64%nat).
Proof.
  intros Hsha Hlen. unfold Utilities.getFileInfoSync. rewrite Hsha.
  destruct (Node.statSync node filePath) as [stats|e1];
    cbn [Js.bind Js.try_catch].
  - destruct (Node.readFileSync node filePath) as [data|e2];
      cbn [Js.bind Js.try_catch].
    + assert (Hne : {| FileInfo.hash := Encoding.hex (sha256 data);
                       FileInfo.size := Z.of_nat (length data);
                       FileInfo.lastModified := Node.mtime_getTime stats |}
                    <> Utilities.sentinel).
      { intros Heq. apply (f_equal FileInfo.hash) in Heq.
        apply (f_equal String.length) in Heq.
        cbn [FileInfo.hash] in Heq. rewrite hex_length, Hlen in Heq.
        discriminate Heq. }
      split.
      * split; [intros Heq; contradiction|].
        intros [[e He]|[e He]]; discriminate.
      * intros _. cbn [FileInfo.hash]. rewrite hex_length, Hlen.
        reflexivity.
    + split.
      * split; [intros _; right; eexists; reflexivity|reflexivity].
      * intros Hne. contradiction Hne. reflexivity.
  - split.
    + split; [intros _; left; eexists; reflexivity|reflexivity].
    + intros Hne. contradiction Hne. reflexivity.
Qed.

Lemma sha256_digest_length (data : list Byte.byte) :
  length (Sha256.digest data) = 32%nat.
Proof.
  unfold Sha256.digest.
  destruct (Sha256.blocks _ _ _) as [[[[[[[h0 h1] h2] h3] h4] h5] h6] h7].
  rewrite length_map, !length_app. reflexivity.
Qed.

Lemma sentinel_iff_failure_witness :
  Node.createHash Examples.node_std "sha256" = Js.Ok Sha256.digest /\
  (Utilities.getFileInfoSync Examples.node_std "/data/abc.txt"
   = Utilities.sentinel
   <-> (exists e, Node.statSync Examples.node_std "/data/abc.txt"
                  = Js.Throw e) \/
       (exists e, Node.readFileSync Examples.node_std "/data/abc.txt"
                  = Js.Throw e)).
Proof.
  split; [reflexivity|].
  exact (proj1 (sentinel_iff_failure Examples.node_std "/data/abc.txt"
                  Sha256.digest eq_refl sha256_digest_length)).
Defined.

(** ** Scanning a directory tree *)

Section Scan.

Import ScanSpec.
Local Open Scope string_scope.

(** Induction on a tree, with the hypothesis for every entry of a
    directory. *)
Lemma entry_induction (P : Fs.entry -> Prop) :
  P Fs.RegularFile ->
  (forall files, Forall (fun nc => P (snd nc)) files ->
                 P (Fs.Directory files)) ->
  (forall err, P (Fs.Unreadable err)) ->
  P Fs.Special ->
  (forall err, P (Fs.LstatError err)) ->
  forall e, P e.
Proof.
  intros HF HD HU HS HL. fix IH 1. intros [|files|err| |err].
  - exact HF.
  - apply HD. induction files as [|[name child] rest IHrest].
    + constructor.
    + constructor; [apply IH|exact IHrest].
  - apply HU.
  - exact HS.
  - apply HL.
Qed.

Lemma append_cons (x : ascii) (a b : string) :
  String x a ++ b = String x (a ++ b).
Proof. reflexivity. Qed.

Lemma append_assoc (a b c : string) : (a ++ b) ++ c = a ++ (b ++ c).
Proof.
  induction a as [|x a IH]; [reflexivity|].
  rewrite !append_cons. f_equal. exact IH.
Qed.

Lemma substring_from_append (a b : string) :
  Fs.substring_from (String.length a) (a ++ b) = b.
Proof.
  induction a as [|x a IH]; [destruct b; reflexivity|].
  rewrite append_cons. cbn [String.length Fs.substring_from]. exact IH.
Qed.

Lemma ends_with_append (c : ascii) (a name : string) :
  name <> "" -> Fs.ends_with c (a ++ name) = Fs.ends_with c name.
Proof.
  intros Hne. induction a as [|x a IH]; [reflexivity|].
  rewrite append_cons. cbn [Fs.ends_with]. rewrite <- IH.
  destruct (a ++ name) eqn:Happ; [|reflexivity].
  destruct a; [change (name = "") in Happ; contradiction|].
  rewrite append_cons in Happ. discriminate.
Qed.

Lemma join_proper (directory name : string) :
  Fs.ends_with "/" directory = false ->
  Fs.join directory name = directory ++ "/" ++ name.
Proof. intros H. unfold Fs.join. rewrite H. reflexivity. Qed.

Lemma starts_with_slash (rel name : string) :
  match rel with
  | EmptyString => true
  | String c _ => Ascii.eqb c "/"
  end = true ->
  exists t, rel ++ "/" ++ name = String "/" t.
Proof.
  destruct rel as [|c r]; intros H.
  - exists name. reflexivity.
  - apply Ascii.eqb_eq in H. subst c. exists (r ++ "/" ++ name).
    reflexivity.
Qed.

Lemma published_slash (t : string) :
  "/files"
  ++ (if String.prefix "/" (Encoding.replace_all "\" "/" (String "/" t))
      then Encoding.replace_all "\" "/" (String "/" t)
      else "/" ++ Encoding.replace_all "\" "/" (String "/" t))
  = published (String "/" t).
Proof.
  unfold published. cbn [Encoding.replace_all].
  change (Ascii.eqb "/" "\") with false. cbv iota.
  cbn [String.prefix].
  destruct (ascii_dec "/" "/") as [_|Hne]; [|contradiction].
  destruct (Encoding.replace_all "\" "/" t); reflexivity.
Qed.

(** The scan of a directory whose names are proper: it throws the first
    read error, or appends the published paths of the visible files. *)
Lemma scanDirectory_exact (rootPath : string) :
  forall e : Fs.entry,
    proper_names e = true ->
    forall (rel : string) (acc : list string),
      Fs.isDirectory e = true ->
      Fs.ends_with "/" (rootPath ++ rel) = false ->
      match rel with
      | EmptyString => true
      | String c _ => Ascii.eqb c "/"
      end = true ->
      Utilities.scanDirectory e (rootPath ++ rel) acc rootPath
      = match first_error e with
        | Some err => Js.Throw err
        | None => Js.Ok (acc ++ List.map published (visible_files e rel))%list
        end.
Proof.
  induction e as [|files IH|err| |err] using entry_induction;
    intros Hnames rel acc Hdir Hend Hrel; try discriminate Hdir.
  - cbn [Utilities.scanDirectory first_error visible_files].
    cbn [proper_names] in Hnames. clear Hdir.
    revert acc. induction files as [|[name child] rest IHrest]; intros acc.
    + simpl. rewrite app_nil_r. reflexivity.
    + apply Forall_cons in IH as [IHchild IHrest']. cbn [snd] in IHchild.
      cbn [forallb] in Hnames.
      apply andb_prop in Hnames as [Hname Hrestn].
      apply andb_prop in Hname as [Hname Hchildn].
      apply andb_prop in Hname as [Hne Hslash].
      apply negb_true_iff in Hne, Hslash. apply String.eqb_neq in Hne.
      specialize (IHrest IHrest' Hrestn).
      cbn [Fs.forEach fold_right flat_map].
      change (hidden name) with (String.prefix "." name).
      destruct (String.prefix "." name) eqn:Hhid.
      * apply IHrest.
      * rewrite (join_proper _ name Hend), append_assoc.
        destruct (starts_with_slash rel name Hrel) as [t Ht].
        assert (Hend' : Fs.ends_with "/" (rootPath ++ rel ++ "/" ++ name)
                        = false).
        { rewrite <- !append_assoc.
          rewrite ends_with_append by exact Hne. exact Hslash. }
        destruct child as [|files'|err'| |err'].
        -- rewrite substring_from_append, Ht, published_slash.
           cbn [first_error visible_files]. rewrite IHrest.
           destruct (foldr _ None rest); [reflexivity|].
           rewrite <- app_assoc. reflexivity.
        -- rewrite (IHchild Hchildn (rel ++ "/" ++ name) acc eq_refl Hend')
             by (rewrite Ht; reflexivity).
           destruct (first_error (Fs.Directory files')) as [err'|];
             [reflexivity|].
           rewrite IHrest, map_app, app_assoc. reflexivity.
        -- cbn [Utilities.scanDirectory first_error]. reflexivity.
        -- cbn [first_error visible_files app]. apply IHrest.
        -- cbn [first_error]. reflexivity.
  - reflexivity.
Qed.

Lemma append_nil_r (a : string) : a ++ "" = a.
Proof.
  induction a as [|x a IH]; [reflexivity|].
  rewrite append_cons, IH. reflexivity.
Qed.

Lemma prefix_append (a b c : string) :
  String.prefix (a ++ b) (a ++ c) = String.prefix b c.
Proof.
  induction a as [|x a IH]; [reflexivity|].
  rewrite !append_cons. cbn [String.prefix].
  destruct (ascii_dec x x) as [_|Hne]; [exact IH|contradiction].
Qed.

Lemma files_prefix (r : string) :
  String.prefix "/files/"
    ("/files" ++ (if String.prefix "/" r then r else "/" ++ r)) = true.
Proof.
  change "/files/" with ("/files" ++ "/"). rewrite prefix_append.
  destruct (String.prefix "/" r) eqn:Hr; [exact Hr|].
  change "/" with ("/" ++ "") at 1. rewrite prefix_append.
  destruct r; reflexivity.
Qed.

(** Hidden entries have no effect on a scan. *)
Lemma scanDirectory_prune (rootPath : string) :
  forall (e : Fs.entry) (directory : string) (acc : list string),
    Utilities.scanDirectory e directory acc rootPath
    = Utilities.scanDirectory (prune e) directory acc rootPath.
Proof.
  induction e as [|files IH|err| |err] using entry_induction;
    intros directory acc; try reflexivity.
  cbn [Utilities.scanDirectory prune].
  revert acc. induction files as [|[name child] rest IHrest]; intros acc;
    [reflexivity|].
  apply Forall_cons in IH as [IHchild IHrest']. cbn [snd] in IHchild.
  specialize (IHrest IHrest').
  cbn [flat_map]. change (hidden name) with (String.prefix "." name).
  cbn [Fs.forEach].
  destruct (String.prefix "." name) eqn:Hhid.
  - cbn [app]. apply IHrest.
  - cbn [app Fs.forEach]. rewrite Hhid.
    destruct child as [|files'|err'| |err'].
    + cbn [prune]. apply IHrest.
    + rewrite IHchild. cbn [prune].
      destruct (Utilities.scanDirectory _ _ _ _); [apply IHrest|reflexivity].
    + cbn [prune]. reflexivity.
    + cbn [prune]. apply IHrest.
    + cbn [prune]. reflexivity.
Qed.

(** What a scan does whatever the names are. *)
Lemma scanDirectory_general (rootPath : string) :
  forall e : Fs.entry,
    Fs.isDirectory e = true ->
    forall (directory rel : string) (acc : list string),
      match first_error e with
      | Some err =>
          Utilities.scanDirectory e directory acc rootPath = Js.Throw err
      | None =>
          exists l : list string,
            Utilities.scanDirectory e directory acc rootPath
            = Js.Ok (acc ++ l)%list /\
            length l = length (visible_files e rel) /\
            Forall (fun p => String.prefix "/files/" p = true) l
      end.
Proof.
  induction e as [|files IH|err| |err] using entry_induction;
    intros Hdir directory rel acc; try discriminate Hdir.
  - cbn [Utilities.scanDirectory first_error visible_files]. clear Hdir.
    revert acc. induction files as [|[name child] rest IHrest]; intros acc.
    + exists []. simpl. rewrite app_nil_r. repeat split. constructor.
    + apply Forall_cons in IH as [IHchild IHrest']. cbn [snd] in IHchild.
      specialize (IHrest IHrest').
      cbn [Fs.forEach fold_right flat_map].
      change (hidden name) with (String.prefix "." name).
      destruct (String.prefix "." name) eqn:Hhid; [apply IHrest|].
      destruct child as [|files'|err'| |err'].
      * cbn [first_error visible_files].
        match goal with
        | |- context [Fs.forEach _ rest (acc ++ [?p])%list] =>
            specialize (IHrest (acc ++ [p])%list); set (path := p) in *
        end.
        destruct (foldr _ None rest) as [err|]; [exact IHrest|].
        destruct IHrest as (l & Hl & Hlen & Hall).
        eexists (_ :: l). rewrite Hl, <- app_assoc.
        split; [reflexivity|]. split; [simpl; lia|].
        constructor; [apply files_prefix|exact Hall].
      * specialize (IHchild eq_refl (Fs.join directory name)
                      (rel ++ "/" ++ name) acc).
        destruct (first_error (Fs.Directory files')) as [err'|].
        -- rewrite IHchild. reflexivity.
        -- destruct IHchild as (l1 & Hl1 & Hlen1 & Hall1).
           rewrite Hl1. specialize (IHrest (acc ++ l1)%list).
           destruct (foldr _ None rest) as [err|]; [exact IHrest|].
           destruct IHrest as (l2 & Hl2 & Hlen2 & Hall2).
           exists (l1 ++ l2)%list. rewrite Hl2, <- app_assoc.
           split; [reflexivity|].
           split; [rewrite !length_app; lia|].
           apply Forall_app. split; assumption.
      * cbn [Utilities.scanDirectory first_error]. reflexivity.
      * cbn [first_error visible_files app]. apply IHrest.
      * cbn [first_error]. reflexivity.
  - reflexivity.
Qed.

End Scan.

(** X22. For a directory root whose resolved path does not end in a slash
    and a tree with proper names, [scanFiles] returns, in the order of the
    directory listings, one path per regular file that no name starting
    with a dot hides: ["/files"] followed by the file's path relative to
    the root, with every backslash turned into a slash; unless a visible
    directory cannot be read or the [lstatSync] of a visible entry throws,
    in which case the first such error is thrown and nothing is
    returned. *)
Theorem scanFiles_lists_visible_files (root : Fs.entry)
    (rootPath : string) :
  Fs.isDirectory root = true ->
  ScanSpec.proper_names root = true ->
  Fs.ends_with "/" rootPath = false ->
  Utilities.scanFiles (Some root) rootPath
  = match ScanSpec.first_error root with
    | Some err => Js.Throw err
    | None =>
        Js.Ok (List.map ScanSpec.published
                 (ScanSpec.visible_files root ""))
    end.
Proof.
  intros Hdir Hnames Hend. unfold Utilities.scanFiles.
  assert (Hstat : Fs.lstatSync root = Js.Ok root)
    by (destruct root; try discriminate Hdir; reflexivity).
  rewrite Hstat. cbn [Js.bind]. rewrite Hdir.
  pose proof (scanDirectory_exact rootPath root Hnames "" [] Hdir) as H.
  rewrite append_nil_r in H. apply H; [exact Hend|reflexivity].
Qed.

Lemma scanFiles_lists_visible_files_witness :
  Fs.isDirectory Examples.tree0 = true /\
  ScanSpec.proper_names Examples.tree0 = true /\
  Fs.ends_with "/" "/srv/files" = false /\
  Utilities.scanFiles (Some Examples.tree0) "/srv/files"
  = Js.Ok ["/files/a.txt"; "/files/lib/b.jar"; "/files/c.txt"]%string.
Proof.
  split; [reflexivity|]. split; [reflexivity|]. split; [reflexivity|].
  exact (scanFiles_lists_visible_files Examples.tree0 "/srv/files"
           eq_refl eq_refl eq_refl).
Defined.

(** X23. Entries whose name starts with a dot have no effect on a scan:
    removing them all from the tree, with everything below them, changes
    neither the paths returned nor whether the scan throws.  In particular
    an unreadable directory below a hidden name is never read, and a hidden
    entry is never examined with [lstatSync]. *)
Theorem scanFiles_ignores_hidden (root : option Fs.entry)
    (rootPath : string) :
  Utilities.scanFiles root rootPath
  = Utilities.scanFiles (option_map ScanSpec.prune root) rootPath.
Proof.
  destruct root as [e|]; [|reflexivity].
  unfold Utilities.scanFiles. cbn [option_map].
  destruct e as [|files|err| |err]; try reflexivity.
  cbn [Fs.lstatSync Js.bind Fs.isDirectory ScanSpec.prune].
  apply (scanDirectory_prune rootPath (Fs.Directory files)).
Qed.

(** X24. Whatever the names in the tree: [scanFiles] throws exactly when
    a directory that no dot-name hides cannot be read or the [lstatSync] of
    an entry that no dot-name hides throws (the root included), and it
    throws the first such error; otherwise it returns the empty list when
    the path does not exist or is not a directory, and for a directory as
    many paths as there are visible regular files, each starting with
    ["/files/"]. *)
Theorem scanFiles_shape (root : option Fs.entry) (rootPath : string) :
  (root = None -> Utilities.scanFiles root rootPath = Js.Ok []) /\
  (forall e err, root = Some e ->
                 ScanSpec.first_error e = Some err ->
                 Utilities.scanFiles root rootPath = Js.Throw err) /\
  (forall e, root = Some e ->
             ScanSpec.first_error e = None ->
             Fs.isDirectory e = false ->
             Utilities.scanFiles root rootPath = Js.Ok []) /\
  (forall e, root = Some e ->
             ScanSpec.first_error e = None ->
             Fs.isDirectory e = true ->
             exists l : list string,
               Utilities.scanFiles root rootPath = Js.Ok l /\
               length l = length (ScanSpec.visible_files e "") /\
               Forall (fun p => String.prefix "/files/" p = true) l).
Proof.
  split; [intros ->; reflexivity|].
  split; [|split].
  - intros e err -> Herr. unfold Utilities.scanFiles.
    destruct e as [|files|err'| |err']; try discriminate Herr.
    + cbn [Fs.lstatSync Js.bind Fs.isDirectory].
      pose proof (scanDirectory_general rootPath (Fs.Directory files)
                    eq_refl rootPath "" []) as H.
      rewrite Herr in H. exact H.
    + injection Herr as ->. reflexivity.
    + injection Herr as ->. reflexivity.
  - intros e -> Hnone Hk. unfold Utilities.scanFiles.
    destruct e as [|files|err'| |err'];
      try discriminate Hnone; try discriminate Hk; reflexivity.
  - intros e -> Hnone Hk. unfold Utilities.scanFiles.
    destruct e as [|files|err'| |err'];
      try discriminate Hnone; try discriminate Hk.
    cbn [Fs.lstatSync Js.bind Fs.isDirectory].
    pose proof (scanDirectory_general rootPath (Fs.Directory files)
                  eq_refl rootPath "" []) as H.
    rewrite Hnone in H. exact H.
Qed.

Lemma scanFiles_shape_witness :
  Utilities.scanFiles (Some Examples.tree_locked) "/srv"
  = Js.Throw (Js.Error "EACCES: permission denied, scandir") /\
  Utilities.scanFiles (Some Examples.tree_unsearchable) "/srv"
  = Js.Throw (Js.Error "EACCES: permission denied, lstat") /\
  exists l : list string,
    Utilities.scanFiles (Some Examples.tree0) "/" = Js.Ok l /\
    length l = length (ScanSpec.visible_files Examples.tree0 "") /\
    Forall (fun p => String.prefix "/files/" p = true) l.
Proof.
  split; [|split].
  - apply (proj1 (proj2 (scanFiles_shape
             (Some Examples.tree_locked) "/srv"))
             Examples.tree_locked
             (Js.Error "EACCES: permission denied, scandir"));
      reflexivity.
  - apply (proj1 (proj2 (scanFiles_shape
             (Some Examples.tree_unsearchable) "/srv"))
             Examples.tree_unsearchable
             (Js.Error "EACCES: permission denied, lstat"));
      reflexivity.
  - apply (proj2 (proj2 (proj2 (scanFiles_shape (Some Examples.tree0) "/")))
             Examples.tree0); reflexivity.
Defined.

(** X25. Chance plays no part when a single cluster is eligible: whatever
    [Math.random] draws, [randomAvailableCluster] returns that cluster. *)
Theorem randomAvailableCluster_single (this : FileList.t) (file : File.t)
    (clusters : option (list ClusterEntity.t)) (ip : option string)
    (g : Random.rng) (c : ClusterEntity.t) :
  FileList.getAvailableClusters this (Some file) clusters = [c] ->
  fst (FileList.randomAvailableCluster this file clusters ip g) = Some c.
Proof.
  intros Hone. unfold FileList.randomAvailableCluster. rewrite Hone.
  unfold Utilities.getRandomElement. cbn [length Z.of_nat].
  change (Z.of_nat 1 =? 0) with false. cbv iota.
  pose proof (Math_random_range g) as Hr.
  destruct (Random.Math_random g) as [r g']. simpl fst in Hr.
  pose proof (Math_floor_mul_range r 1 Hr ltac:(lia)) as Hi.
  replace (Random.Math_floor_mul r (Z.of_nat 1)) with 0
    by (change (Z.of_nat 1) with 1; lia).
  reflexivity.
Qed.

Lemma randomAvailableCluster_single_witness :
  FileList.getAvailableClusters Examples.catalog0 (Some Examples.file_a) None
  = [Examples.cluster_full] /\
  fst (FileList.randomAvailableCluster Examples.catalog0 Examples.file_a
         None None Examples.rng0) = Some Examples.cluster_full.
Proof.
  assert (H : FileList.getAvailableClusters Examples.catalog0
                (Some Examples.file_a) None = [Examples.cluster_full])
    by (vm_compute; reflexivity).
  split; [exact H|].
  exact (randomAvailableCluster_single Examples.catalog0 Examples.file_a
           None None Examples.rng0 Examples.cluster_full H).
Defined.
